(** * LinkSnap URL shortener: the allocation, redirect and click pipeline

    A shallow embedding of [src/server.js]: the [urls] and [analytics]
    tables behind [pool.query], the Redis cache behind [getCachedUrl] and
    [setCachedUrl], [generateShortCode], and the handlers of
    [POST /api/shorten] and [GET /:shortCode] with the analytics task the
    latter hands to [setImmediate].

    Conventions of the model
    - timestamps are milliseconds in [Z]; the clock is the field [now];
    - [Math.floor(Math.random() * chars.length)] is an oracle
      [random_index] indexed by the number of draws made so far;
    - a [pool.query] or Redis call may fail for reasons outside the
      program (connection lost, timeout): the oracles [db_fault] and
      [cache_fault], indexed by the number of calls made so far, say which
      calls do;
    - [validator.isURL] is a library function, taken as the oracle [isURL];
    - [expiresIn] is an integer number of days when present;
    - [JSON.stringify] followed by [JSON.parse] gives back a row with the
      same columns, so the cache holds rows; [redisClient.get] and
      [redisClient.setex] are taken as the promise-returning calls the
      code awaits;
    - the [users] table is outside the model: the foreign key of
      [urls.user_id] is taken to hold for an authenticated request;
    - the id sequences advance on a successful INSERT only (the gaps a
      failed INSERT leaves in a SERIAL column are not modelled: ids are
      fresh either way);
    - strings are byte strings, so a length is a number of characters for
      ASCII text. *)

From Stdlib Require Import ZArith String Ascii List Bool Lia Sorted Permutation.
From stdpp Require Import gmap strings list.
Import ListNotations.

Local Open Scope string_scope.
Local Open Scope Z_scope.

(** ** Rows of the two tables *)

(** A row of [urls] (server.js, 91-101). *)
Record UrlRow := mkUrlRow {
  row_id : Z;                      (* id SERIAL PRIMARY KEY *)
  user_id : Z;                     (* user_id INTEGER REFERENCES users(id) *)
  original_url : string;           (* original_url TEXT NOT NULL *)
  short_code : string;             (* short_code VARCHAR(20) UNIQUE NOT NULL *)
  custom_alias : option string;    (* custom_alias VARCHAR(50) *)
  created_at : Z;                  (* DEFAULT CURRENT_TIMESTAMP *)
  expires_at : option Z;           (* expires_at TIMESTAMP *)
  is_active : bool;                (* DEFAULT TRUE *)
  click_count : Z                  (* click_count INTEGER DEFAULT 0 *)
}.

(** A row of [analytics] (server.js, 111-120); [country] and [city] are
    never written by the server and stay NULL. *)
Record ClickRow := mkClickRow {
  click_id : Z;
  url_id : Z;
  clicked_at : Z;
  ip_address : string;
  user_agent : option string;
  referer : option string
}.

(** What the analytics task closes over: [urlData.id] and the request. *)
Record ReqCtx := mkReqCtx {
  req_ip : string;
  req_user_agent : option string;
  req_referer : option string
}.

Record ClickTask := mkClickTask {
  task_url_id : Z;
  task_ctx : ReqCtx
}.

(** ** The server's world *)

Record State := mkState {
  urls : list UrlRow;                  (* table urls, in insertion order *)
  analytics : list ClickRow;           (* table analytics *)
  urls_id_seq : Z;                     (* next value of urls.id *)
  analytics_id_seq : Z;                (* next value of analytics.id *)
  cache : gmap string (UrlRow * Z);    (* Redis: key -> (row, time of expiry) *)
  immediate : list ClickTask;          (* callbacks queued by setImmediate *)
  now : Z;                             (* the clock, in ms *)
  rnd_pos : nat;                       (* draws of Math.random so far *)
  db_ops : nat;                        (* pool.query calls so far *)
  cache_ops : nat                      (* Redis calls so far *)
}.

Definition set_urls (l : list UrlRow) (st : State) : State :=
  mkState l (analytics st) (urls_id_seq st) (analytics_id_seq st) (cache st)
          (immediate st) (now st) (rnd_pos st) (db_ops st) (cache_ops st).
Definition set_analytics (l : list ClickRow) (st : State) : State :=
  mkState (urls st) l (urls_id_seq st) (analytics_id_seq st) (cache st)
          (immediate st) (now st) (rnd_pos st) (db_ops st) (cache_ops st).
Definition set_urls_id_seq (n : Z) (st : State) : State :=
  mkState (urls st) (analytics st) n (analytics_id_seq st) (cache st)
          (immediate st) (now st) (rnd_pos st) (db_ops st) (cache_ops st).
Definition set_analytics_id_seq (n : Z) (st : State) : State :=
  mkState (urls st) (analytics st) (urls_id_seq st) n (cache st)
          (immediate st) (now st) (rnd_pos st) (db_ops st) (cache_ops st).
Definition set_cache (c : gmap string (UrlRow * Z)) (st : State) : State :=
  mkState (urls st) (analytics st) (urls_id_seq st) (analytics_id_seq st) c
          (immediate st) (now st) (rnd_pos st) (db_ops st) (cache_ops st).
Definition set_immediate (q : list ClickTask) (st : State) : State :=
  mkState (urls st) (analytics st) (urls_id_seq st) (analytics_id_seq st) (cache st)
          q (now st) (rnd_pos st) (db_ops st) (cache_ops st).
Definition set_now (t : Z) (st : State) : State :=
  mkState (urls st) (analytics st) (urls_id_seq st) (analytics_id_seq st) (cache st)
          (immediate st) t (rnd_pos st) (db_ops st) (cache_ops st).
Definition set_rnd_pos (n : nat) (st : State) : State :=
  mkState (urls st) (analytics st) (urls_id_seq st) (analytics_id_seq st) (cache st)
          (immediate st) (now st) n (db_ops st) (cache_ops st).
Definition set_db_ops (n : nat) (st : State) : State :=
  mkState (urls st) (analytics st) (urls_id_seq st) (analytics_id_seq st) (cache st)
          (immediate st) (now st) (rnd_pos st) n (cache_ops st).
Definition set_cache_ops (n : nat) (st : State) : State :=
  mkState (urls st) (analytics st) (urls_id_seq st) (analytics_id_seq st) (cache st)
          (immediate st) (now st) (rnd_pos st) (db_ops st) n.

(** What lies outside the program. *)
Record Env := mkEnv {
  random_index : nat -> nat;   (* Math.floor(Math.random() * 62), k-th draw *)
  db_fault : nat -> bool;      (* does the k-th pool.query fail? *)
  cache_fault : nat -> bool;   (* does the k-th Redis call fail? *)
  isURL : string -> bool;      (* validator.isURL with http/https required *)
  BASE_URL : option string     (* process.env.BASE_URL *)
}.

(** ** Exceptions and the handler monad *)

Inductive Err :=
  | ConnectionError        (* the query or Redis call did not go through *)
  | StringTooLong          (* 22001: value too long for type varchar(n) *)
  | UniqueViolation        (* 23505 *)
  | ForeignKeyViolation    (* 23503 *)
  | IntegerOutOfRange.     (* 22003 *)

Inductive Result (A : Type) :=
  | Ok (a : A)
  | Throw (e : Err)
  | Hang.                  (* the loop has not finished within the fuel *)
Arguments Ok {A} a.
Arguments Throw {A} e.
Arguments Hang {A}.

Definition M (A : Type) : Type := State -> Result A * State.

Definition ret {A} (a : A) : M A := fun st => (Ok a, st).
Definition throw {A} (e : Err) : M A := fun st => (Throw e, st).
Definition hang {A} : M A := fun st => (Hang, st).
Definition bind {A B} (m : M A) (k : A -> M B) : M B := fun st =>
  match m st with
  | (Ok a, st') => k a st'
  | (Throw e, st') => (Throw e, st')
  | (Hang, st') => (Hang, st')
  end.

Notation "'let*' x ':=' m 'in' k" := (bind m (fun x => k))
  (at level 10, x pattern, m at level 100, k at level 200).
Notation "'do*' m 'in' k" := (bind m (fun _ => k))
  (at level 10, m at level 100, k at level 200).

(** [try { m } catch (error) { console.error(...); return dflt }] *)
Definition try_catch {A} (m : M A) (dflt : A) : M A := fun st =>
  match m st with
  | (Throw _, st') => (Ok dflt, st')
  | other => other
  end.

(** ** HTTP responses *)

Inductive Response :=
  | Created (shortUrl shortCode originalUrl : string)
            (expiresAt : option Z) (createdAt : Z)        (* 201 *)
  | BadRequest (error : string)                           (* 400 *)
  | NotFound                                              (* 404 *)
  | Gone                                                  (* 410 *)
  | Redirect (location : string)                          (* 301 *)
  | InternalError.                                        (* 500 *)

Definition status (r : Response) : Z :=
  match r with
  | Created _ _ _ _ _ => 201
  | BadRequest _ => 400
  | NotFound => 404
  | Gone => 410
  | Redirect _ => 301
  | InternalError => 500
  end.

(** A handler's [try { body } catch (error) { res.status(500)... }]:
    [None] when the body is still looping. *)
Definition respond (body : M Response) : State -> option Response * State := fun st =>
  match body st with
  | (Ok r, st') => (Some r, st')
  | (Throw _, st') => (Some InternalError, st')
  | (Hang, st') => (None, st')
  end.

(** ** The code generator (server.js, 130-137) *)

Definition chars : string :=
  "ABCDEFGHIJKLMNOPQRSTUVWXYZabcdefghijklmnopqrstuvwxyz0123456789".

(** [s.charAt(i)]: the empty string when [i] is out of range. *)
Definition charAt (s : string) (i : nat) : string :=
  match String.get i s with
  | Some c => String c EmptyString
  | None => EmptyString
  end.

Section Server.

Variable env : Env.

(** [Math.floor(Math.random() * chars.length)] *)
Definition random_draw : M nat := fun st =>
  (Ok (random_index env (rnd_pos st)), set_rnd_pos (S (rnd_pos st)) st).

(** The body of [for (let i = 0; i < 7; i++)], with [n] rounds to go. *)
Fixpoint generate_chars (n : nat) (result : string) : M string :=
  match n with
  | O => ret result
  | S n' =>
      let* i := random_draw in
      generate_chars n' (result ++ charAt chars i)
  end.

Definition generateShortCode : M string := generate_chars 7 "".

Definition validateUrl (url : string) : bool := isURL env url.

(** ** The database behind [pool.query] *)

(** One call of [pool.query]: counted, and lost when the oracle says so. *)
Definition pool_query {A} (q : M A) : M A := fun st =>
  let st' := set_db_ops (S (db_ops st)) st in
  if db_fault env (db_ops st) then (Throw ConnectionError, st') else q st'.

Definition all_spaces (s : string) : bool :=
  forallb (Ascii.eqb " "%char) (list_ascii_of_string s).

(** Storing [s] in a [VARCHAR(n)] column: an over-long value is an error
    unless the excess is all spaces, which are then cut off. *)
Definition varchar (n : nat) (s : string) : option string :=
  if (String.length s <=? n)%nat then Some s
  else if all_spaces (substring n (String.length s - n) s)
       then Some (substring 0 n s)
       else None.

(** The same for a column that may be NULL. *)
Definition varchar_opt (n : nat) (a : option string) : option (option string) :=
  match a with
  | None => Some None
  | Some s => option_map Some (varchar n s)
  end.

Definition has_code (c : string) (r : UrlRow) : bool := String.eqb (short_code r) c.

(** [SELECT id FROM urls WHERE short_code = $1] *)
Definition select_by_code (c : string) : M (list UrlRow) := fun st =>
  (Ok (List.filter (has_code c) (urls st)), st).

(** [SELECT * FROM urls WHERE short_code = $1 AND is_active = TRUE] *)
Definition select_active_by_code (c : string) : M (list UrlRow) := fun st =>
  (Ok (List.filter (fun r => has_code c r && is_active r) (urls st)), st).

(** [INSERT INTO urls (user_id, original_url, short_code, custom_alias,
    expires_at) VALUES (...) RETURNING *] *)
Definition insert_url (uid : Z) (url code : string) (alias : option string)
    (exp : option Z) : M UrlRow := fun st =>
  match varchar 20 code with
  | None => (Throw StringTooLong, st)
  | Some code' =>
      match varchar_opt 50 alias with
      | None => (Throw StringTooLong, st)
      | Some alias' =>
          if existsb (has_code code') (urls st) then (Throw UniqueViolation, st)
          else
            let row := mkUrlRow (urls_id_seq st) uid url code' alias'
                                (now st) exp true 0 in
            (Ok row, set_urls_id_seq (urls_id_seq st + 1)
                       (set_urls (urls st ++ [row]) st))
      end
  end.

Definition INT_MAX : Z := 2147483647.

Definition bump (id : Z) (r : UrlRow) : UrlRow :=
  if row_id r =? id
  then mkUrlRow (row_id r) (user_id r) (original_url r) (short_code r)
                (custom_alias r) (created_at r) (expires_at r) (is_active r)
                (click_count r + 1)
  else r.

(** [UPDATE urls SET click_count = click_count + 1 WHERE id = $1]; the
    column is a 32-bit INTEGER, so the statement fails at its top. *)
Definition update_click_count (id : Z) : M unit := fun st =>
  if existsb (fun r => (row_id r =? id) && (INT_MAX <? click_count r + 1)) (urls st)
  then (Throw IntegerOutOfRange, st)
  else (Ok tt, set_urls (map (bump id) (urls st)) st).

(** [INSERT INTO analytics (url_id, ip_address, user_agent, referer)
    VALUES (...)]; [url_id] references [urls(id)]. *)
Definition insert_analytics (id : Z) (ctx : ReqCtx) : M unit := fun st =>
  if existsb (fun r => row_id r =? id) (urls st)
  then
    let row := mkClickRow (analytics_id_seq st) id (now st)
                          (req_ip ctx) (req_user_agent ctx) (req_referer ctx) in
    (Ok tt, set_analytics_id_seq (analytics_id_seq st + 1)
              (set_analytics (analytics st ++ [row]) st))
  else (Throw ForeignKeyViolation, st).

(** ** The cache (server.js, 147-163) *)

Definition CACHE_TTL_MS : Z := 3600 * 1000.

(** [redisClient.get(`url:${shortCode}`)]: an entry past its time of
    expiry is gone. *)
Definition redis_get (k : string) : M (option UrlRow) := fun st =>
  let st' := set_cache_ops (S (cache_ops st)) st in
  if cache_fault env (cache_ops st) then (Throw ConnectionError, st')
  else
    match cache st !! k with
    | Some (r, e) => if now st <? e then (Ok (Some r), st') else (Ok None, st')
    | None => (Ok None, st')
    end.

(** [redisClient.setex(`url:${shortCode}`, 3600, JSON.stringify(urlData))] *)
Definition redis_setex (k : string) (r : UrlRow) : M unit := fun st =>
  let st' := set_cache_ops (S (cache_ops st)) st in
  if cache_fault env (cache_ops st) then (Throw ConnectionError, st')
  else (Ok tt, set_cache (<[k := (r, now st + CACHE_TTL_MS)]> (cache st)) st').

Definition getCachedUrl (shortCode : string) : M (option UrlRow) :=
  try_catch (redis_get shortCode) None.

Definition setCachedUrl (shortCode : string) (urlData : UrlRow) : M unit :=
  try_catch (redis_setex shortCode urlData) tt.

(** ** POST /api/shorten (server.js, 264-321) *)

Record ShortenReq := mkShortenReq {
  originalUrl : string;
  customAlias : option string;   (* None: the field is absent *)
  expiresIn : option Z;          (* days *)
  userId : Z                     (* req.user.userId, from the token *)
}.

(** [if (customAlias)]: absent and the empty string are falsy. *)
Definition truthy_alias (a : option string) : option string :=
  match a with
  | Some s => if String.eqb s "" then None else Some s
  | None => None
  end.

(** [if (expiresIn)]: absent and zero are falsy. *)
Definition truthy_days (d : option Z) : option Z :=
  match d with
  | Some n => if n =? 0 then None else Some n
  | None => None
  end.

Definition MS_PER_DAY : Z := 24 * 60 * 60 * 1000.

(** [new Date(Date.now() + expiresIn * 24 * 60 * 60 * 1000)], or null. *)
Definition compute_expiresAt (d : option Z) : M (option Z) := fun st =>
  match truthy_days d with
  | Some n => (Ok (Some (now st + n * MS_PER_DAY)), st)
  | None => (Ok None, st)
  end.

Definition base_url : string :=
  match BASE_URL env with
  | Some b => if String.eqb b "" then "https://linksnap.io" else b
  | None => "https://linksnap.io"
  end.

(** The [do { ... } while (true)] of lines 286-293, run for at most [fuel]
    rounds. *)
Fixpoint unique_code_loop (fuel : nat) : M string :=
  match fuel with
  | O => hang
  | S fuel' =>
      let* shortCode := generateShortCode in
      let* existing := pool_query (select_by_code shortCode) in
      if (length existing =? 0)%nat then ret shortCode
      else unique_code_loop fuel'
  end.

(** Lines 296-316: what follows once [shortCode] is chosen. *)
Definition store_and_reply (req : ShortenReq) (shortCode : string) : M Response :=
  let* expiresAt := compute_expiresAt (expiresIn req) in
  let* urlData := pool_query (insert_url (userId req) (originalUrl req) shortCode
                                         (customAlias req) expiresAt) in
  do* setCachedUrl shortCode urlData in
  ret (Created (base_url ++ "/" ++ shortCode) shortCode (originalUrl req)
               expiresAt (created_at urlData)).

Definition shorten_body (fuel : nat) (req : ShortenReq) : M Response :=
  if negb (validateUrl (originalUrl req))
  then ret (BadRequest "Invalid URL format")
  else
    match truthy_alias (customAlias req) with
    | Some alias =>
        let* existingAlias := pool_query (select_by_code alias) in
        if (0 <? length existingAlias)%nat
        then ret (BadRequest "Custom alias already taken")
        else store_and_reply req alias
    | None =>
        let* shortCode := unique_code_loop fuel in
        store_and_reply req shortCode
    end.

Definition shorten_handler (fuel : nat) (req : ShortenReq)
  : State -> option Response * State :=
  respond (shorten_body fuel req).

(** ** GET /:shortCode (server.js, 324-379) *)

(** [urlData.expires_at && new Date() > new Date(urlData.expires_at)] *)
Definition is_expired (urlData : UrlRow) (t : Z) : bool :=
  match expires_at urlData with
  | Some e => e <? t
  | None => false
  end.

(** [setImmediate(callback)] *)
Definition setImmediate (t : ClickTask) : M unit := fun st =>
  (Ok tt, set_immediate (immediate st ++ [t]) st).

Definition current_time : M Z := fun st => (Ok (now st), st).

(** Lines 346-374: what follows once [urlData] is in hand. *)
Definition check_and_redirect (urlData : UrlRow) (ctx : ReqCtx) : M Response :=
  let* t := current_time in
  if is_expired urlData t then ret Gone
  else
    do* setImmediate (mkClickTask (row_id urlData) ctx) in
    ret (Redirect (original_url urlData)).

Definition redirect_body (shortCode : string) (ctx : ReqCtx) : M Response :=
  let* cached := getCachedUrl shortCode in
  match cached with
  | Some urlData => check_and_redirect urlData ctx
  | None =>
      let* rows := pool_query (select_active_by_code shortCode) in
      match rows with
      | [] => ret NotFound
      | urlData :: _ =>
          do* setCachedUrl shortCode urlData in
          check_and_redirect urlData ctx
      end
  end.

Definition redirect_handler (shortCode : string) (ctx : ReqCtx)
  : State -> option Response * State :=
  respond (redirect_body shortCode ctx).

(** ** The analytics task (server.js, 352-372) *)

Definition click_task_body (t : ClickTask) : M unit :=
  do* pool_query (update_click_count (task_url_id t)) in
  pool_query (insert_analytics (task_url_id t) (task_ctx t)).

(** The callback: its own [try]/[catch] around both queries. *)
Definition click_task (t : ClickTask) : M unit :=
  try_catch (click_task_body t) tt.

(** The event loop runs the oldest queued callback. *)
Definition run_immediate (st : State) : State :=
  match immediate st with
  | [] => st
  | t :: q => snd (click_task t (set_immediate q st))
  end.

End Server.

(** ** Requests in flight

    An [async] handler gives up control at each [await]. A request to
    [POST /api/shorten] is therefore at one of four places; one step runs
    the awaited call and the code after it up to the next [await]. *)

Inductive ShortenPc :=
  | AtEntry (req : ShortenReq)
      (* not started, or the generated code was taken: another round *)
  | AtInsert (req : ShortenReq) (shortCode : string)
      (* the existence check came back empty; INSERT is next *)
  | AtCache (req : ShortenReq) (shortCode : string)
            (expiresAt : option Z) (urlData : UrlRow)
      (* INSERT returned its row; setCachedUrl is next *)
  | Finished (r : Response).

Section Interleaving.

Variable env : Env.

Definition thread_step (pc : ShortenPc) : State -> ShortenPc * State := fun st =>
  match pc with
  | AtEntry req =>
      if negb (validateUrl env (originalUrl req))
      then (Finished (BadRequest "Invalid URL format"), st)
      else
        match truthy_alias (customAlias req) with
        | Some alias =>
            match pool_query env (select_by_code alias) st with
            | (Ok existingAlias, st') =>
                if (0 <? length existingAlias)%nat
                then (Finished (BadRequest "Custom alias already taken"), st')
                else (AtInsert req alias, st')
            | (_, st') => (Finished InternalError, st')
            end
        | None =>
            match generateShortCode env st with
            | (Ok shortCode, st1) =>
                match pool_query env (select_by_code shortCode) st1 with
                | (Ok existing, st') =>
                    if (length existing =? 0)%nat
                    then (AtInsert req shortCode, st')
                    else (AtEntry req, st')
                | (_, st') => (Finished InternalError, st')
                end
            | (_, st1) => (Finished InternalError, st1)
            end
        end
  | AtInsert req shortCode =>
      match compute_expiresAt (expiresIn req) st with
      | (Ok expiresAt, st1) =>
          match pool_query env (insert_url (userId req) (originalUrl req) shortCode
                                           (customAlias req) expiresAt) st1 with
          | (Ok urlData, st') => (AtCache req shortCode expiresAt urlData, st')
          | (_, st') => (Finished InternalError, st')
          end
      | (_, st1) => (Finished InternalError, st1)
      end
  | AtCache req shortCode expiresAt urlData =>
      let st' := snd (setCachedUrl env shortCode urlData st) in
      (Finished (Created (base_url env ++ "/" ++ shortCode) shortCode
                         (originalUrl req) expiresAt (created_at urlData)), st')
  | Finished r => (Finished r, st)
  end.

(** One request running with nothing in between. *)
Fixpoint run_thread (n : nat) (pc : ShortenPc) (st : State) : ShortenPc * State :=
  match n with
  | O => (pc, st)
  | S n' => let '(pc', st') := thread_step pc st in run_thread n' pc' st'
  end.

(** Two requests, and the order in which their steps are taken. *)
Inductive Who := First | Second.

Fixpoint run_schedule (sched : list Who) (a b : ShortenPc) (st : State)
  : ShortenPc * ShortenPc * State :=
  match sched with
  | [] => (a, b, st)
  | First :: rest => let '(a', st') := thread_step a st in run_schedule rest a' b st'
  | Second :: rest => let '(b', st') := thread_step b st in run_schedule rest a b' st'
  end.

End Interleaving.

(** ** The core operations as transitions of the world *)

Inductive CoreOp :=
  | Allocate (fuel : nat) (req : ShortenReq)
  | Resolve (shortCode : string) (ctx : ReqCtx)
  | RecordClick.

Definition exec (env : Env) (op : CoreOp) (st : State) : State :=
  match op with
  | Allocate fuel req => snd (shorten_handler env fuel req st)
  | Resolve shortCode ctx => snd (redirect_handler env shortCode ctx st)
  | RecordClick => run_immediate env st
  end.

(** Anything that can happen to the world: a core operation under some
    behaviour of the outside, or the clock moving on. *)
Inductive step : State -> State -> Prop :=
  | step_op env op st : step st (exec env op st)
  | step_clock t st : now st <= t -> step st (set_now t st).

Inductive reachable (st : State) : State -> Prop :=
  | reach_here : reachable st st
  | reach_more st1 st2 : reachable st st1 -> step st1 st2 -> reachable st st2.

(** ** GET /api/urls (server.js, 382-415) *)

(** What PostgreSQL refuses in a LIMIT/OFFSET clause (2201W, 2201X). *)
Inductive SqlReject := NegativeLimit | NegativeOffset.

(** [ORDER BY key DESC]: insertion into a list sorted downwards. SQL
    leaves the order of rows with equal keys open; here they stay in table
    order. *)
Fixpoint insert_desc {A} (key : A -> Z) (x : A) (l : list A) : list A :=
  match l with
  | [] => [x]
  | y :: l' => if key y <=? key x then x :: y :: l' else y :: insert_desc key x l'
  end.

Fixpoint order_by_desc {A} (key : A -> Z) (l : list A) : list A :=
  match l with
  | [] => []
  | x :: l' => insert_desc key x (order_by_desc key l')
  end.

Definition owned_by (uid : Z) (r : UrlRow) : bool := user_id r =? uid.

(** [SELECT ... FROM urls WHERE user_id = $1 ORDER BY created_at DESC
    LIMIT $2 OFFSET $3] *)
Definition select_page (uid limit offset : Z) : M (SqlReject + list UrlRow) := fun st =>
  if limit <? 0 then (Ok (inl NegativeLimit), st)
  else if offset <? 0 then (Ok (inl NegativeOffset), st)
  else
    (Ok (inr (firstn (Z.to_nat limit)
               (skipn (Z.to_nat offset)
                  (order_by_desc created_at (List.filter (owned_by uid) (urls st)))))),
     st).

(** [SELECT COUNT( * ) FROM urls WHERE user_id = $1] *)
Definition count_owned (uid : Z) : M Z := fun st =>
  (Ok (Z.of_nat (length (List.filter (owned_by uid) (urls st)))), st).

(** The query string, its numbers read. *)
Record ListReq := mkListReq {
  list_userId : Z;            (* req.user.userId *)
  list_page : option Z;       (* None: the parameter is absent *)
  list_limit : option Z
}.

Inductive ListResponse :=
  | UrlsPage (urls : list (UrlRow * string))   (* each row with its shortUrl *)
             (total page : Z)
             (totalPages : option Z)           (* None: not a finite number *)
  | ListError.                                 (* 500 *)

(** [Math.ceil(count / limit)]; a division by zero gives no finite number. *)
Definition total_pages (count limit : Z) : option Z :=
  if limit =? 0 then None else Some ((count + limit - 1) / limit).

Section Listing.

Variable env : Env.

Definition list_body (req : ListReq) : M (SqlReject + ListResponse) :=
  let page := default 1 (list_page req) in
  let limit := default 20 (list_limit req) in
  let offset := (page - 1) * limit in
  let* result := pool_query env (select_page (list_userId req) limit offset) in
  match result with
  | inl e => ret (inl e)
  | inr rows =>
      let* count := pool_query env (count_owned (list_userId req)) in
      ret (inr (UrlsPage
                  (map (fun url => (url, base_url env ++ "/" ++ short_code url)) rows)
                  count page (total_pages count limit)))
  end.

(** The handler: a refused statement or a lost query is an exception, and
    the [catch] answers 500. *)
Definition list_handler (req : ListReq) : State -> option ListResponse * State := fun st =>
  match list_body req st with
  | (Ok (inr r), st') => (Some r, st')
  | (Ok (inl _), st') => (Some ListError, st')
  | (Throw _, st') => (Some ListError, st')
  | (Hang, st') => (None, st')
  end.

End Listing.

(** ** GET /api/analytics/:shortCode (server.js, 418-466) *)

Record AnalyticsReq := mkAnalyticsReq {
  an_shortCode : string;      (* req.params.shortCode *)
  an_userId : Z               (* req.user.userId *)
}.

Inductive AnalyticsResponse :=
  | AnalyticsOk (dailyClicks : list (Z * Z))   (* (date, clicks) *)
                (totalClicks activeDays : Z)
  | AnalyticsNotFound                          (* 404 *)
  | AnalyticsError.                            (* 500 *)

(** [SELECT id FROM urls WHERE short_code = $1 AND user_id = $2] *)
Definition select_owned_id (c : string) (uid : Z) : M (list Z) := fun st =>
  (Ok (map row_id (List.filter (fun r => has_code c r && (user_id r =? uid)) (urls st))),
   st).

(** [DATE(clicked_at)], as the number of the day. *)
Definition date_of (e : ClickRow) : Z := clicked_at e / MS_PER_DAY.

Definition events_of (id : Z) (st : State) : list ClickRow :=
  List.filter (fun e => url_id e =? id) (analytics st).

Definition clicks_on (d : Z) (evs : list ClickRow) : Z :=
  Z.of_nat (length (List.filter (fun e => date_of e =? d) evs)).

(** The dates on which the events fall, each once. *)
Definition dates_of (evs : list ClickRow) : list Z := nodup Z.eq_dec (map date_of evs).

(** [SELECT DATE(clicked_at) as date, COUNT( * ) as clicks FROM analytics
    WHERE url_id = $1 GROUP BY DATE(clicked_at) ORDER BY date DESC
    LIMIT 30] *)
Definition select_daily_clicks (id : Z) : M (list (Z * Z)) := fun st =>
  let evs := events_of id st in
  (Ok (firstn 30 (map (fun d => (d, clicks_on d evs))
                      (order_by_desc (fun d => d) (dates_of evs)))),
   st).

(** [SELECT COUNT( * ) as total_clicks, COUNT(DISTINCT DATE(clicked_at))
    as active_days FROM analytics WHERE url_id = $1] *)
Definition select_click_stats (id : Z) : M (Z * Z) := fun st =>
  let evs := events_of id st in
  (Ok (Z.of_nat (length evs), Z.of_nat (length (dates_of evs))), st).

(** A handler's [try]/[catch] for any kind of answer: [err] is the 500. *)
Definition answer_or {R} (err : R) (body : M R) : State -> option R * State := fun st =>
  match body st with
  | (Ok r, st') => (Some r, st')
  | (Throw _, st') => (Some err, st')
  | (Hang, st') => (None, st')
  end.

Section Analytics.

Variable env : Env.

Definition analytics_body (req : AnalyticsReq) : M AnalyticsResponse :=
  let* urlResult := pool_query env (select_owned_id (an_shortCode req) (an_userId req)) in
  match urlResult with
  | [] => ret AnalyticsNotFound
  | urlId :: _ =>
      let* analyticsResult := pool_query env (select_daily_clicks urlId) in
      let* statsResult := pool_query env (select_click_stats urlId) in
      ret (AnalyticsOk analyticsResult (fst statsResult) (snd statsResult))
  end.

Definition analytics_handler (req : AnalyticsReq)
  : State -> option AnalyticsResponse * State :=
  answer_or AnalyticsError (analytics_body req).

End Analytics.

(** ** The Redis retry strategy (server.js, 30-35) *)

Record RetryOptions := mkRetryOptions {
  retry_error_code : option string;   (* options.error.code; None: no error *)
  retry_attempt : Z                   (* options.attempt *)
}.

Inductive RetryDecision :=
  | StopRetrying (message : string)   (* return new Error(...) *)
  | RetryIn (ms : Z).

Definition retry_strategy (options : RetryOptions) : RetryDecision :=
  match retry_error_code options with
  | Some code =>
      if String.eqb code "ECONNREFUSED" then StopRetrying "Redis connection refused"
      else RetryIn (Z.min (retry_attempt options * 100) 3000)
  | None => RetryIn (Z.min (retry_attempt options * 100) 3000)
  end.

(** ** Accounts: tokens, registration and login (server.js, 62-75 and
    177-261)

    [jsonwebtoken], [bcryptjs] and [validator.isEmail] are libraries: what
    they compute is taken from the outside. The rate limiter in front of
    registration is a library too and is left out. The fields of a request
    body are strings or absent. *)

(** The payload of a token: [{ userId, email }]. *)
Record TokenUser := mkTokenUser {
  tok_userId : Z;
  tok_email : string
}.

Record AuthEnv := mkAuthEnv {
  jwt_verify : string -> option TokenUser;   (* None: err is set *)
  jwt_sign : TokenUser -> Z -> string;       (* payload, time of signing *)
  bcrypt_hash : string -> nat -> string;     (* bcrypt.hash(password, 12): the
                                                salt is drawn anew at each call,
                                                told apart by the second argument *)
  bcrypt_compare : string -> string -> bool;
  isEmail : string -> bool                   (* validator.isEmail *)
}.

(** [s.split(' ')] *)
Fixpoint split_space (s : string) : list string :=
  match s with
  | EmptyString => [EmptyString]
  | String c s' =>
      if Ascii.eqb c " "%char then EmptyString :: split_space s'
      else match split_space s' with
           | w :: ws => String c w :: ws
           | [] => [String c EmptyString]
           end
  end.

Inductive AuthOutcome :=
  | Status401
  | Status403
  | Next (user : TokenUser).          (* req.user = user; next() *)

(** [authHeader && authHeader.split(' ')[1]]: None stands for undefined. *)
Definition header_token (authHeader : option string) : option string :=
  match authHeader with
  | Some h => if String.eqb h "" then Some "" else nth_error (split_space h) 1
  | None => None
  end.

Definition authenticateToken (aenv : AuthEnv) (authHeader : option string) : AuthOutcome :=
  match header_token authHeader with
  | Some token =>
      if String.eqb token "" then Status401
      else match jwt_verify aenv token with
           | None => Status403
           | Some user => Next user
           end
  | None => Status401
  end.

(** A row of [users] (server.js, 81-87). *)
Record UserRow := mkUserRow {
  user_row_id : Z;               (* id SERIAL PRIMARY KEY *)
  user_email : string;           (* email VARCHAR(255) UNIQUE NOT NULL *)
  password_hash : string;        (* password_hash VARCHAR(255) NOT NULL *)
  user_created_at : Z;           (* DEFAULT CURRENT_TIMESTAMP *)
  is_premium : bool              (* DEFAULT FALSE *)
}.

Record Accounts := mkAccounts {
  users : list UserRow;          (* table users, in insertion order *)
  users_id_seq : Z;              (* next value of users.id *)
  acct_now : Z;                  (* the clock *)
  acct_queries : nat             (* pool.query calls so far *)
}.

Inductive AuthErr :=
  | QueryLost                    (* the query did not go through *)
  | ValueTooLong                 (* 22001 *)
  | DuplicateKey                 (* 23505 *)
  | IllegalArguments.            (* bcryptjs, given something not a string *)

Definition AM (A : Type) : Type := Accounts -> (AuthErr + A) * Accounts.

Definition acct_bind {A B} (m : AM A) (k : A -> AM B) : AM B := fun ac =>
  match m ac with
  | (inr a, ac') => k a ac'
  | (inl e, ac') => (inl e, ac')
  end.

Notation "'let+' x ':=' m 'in' k" := (acct_bind m (fun x => k))
  (at level 10, x pattern, m at level 100, k at level 200).

Definition acct_ret {A} (a : A) : AM A := fun ac => (inr a, ac).

Inductive AuthResponse :=
  | Registered (token : string) (id : Z) (email : string)    (* 201 *)
  | LoggedIn (token : string) (id : Z) (email : string)      (* 200 *)
  | AuthBadRequest (error : string)                          (* 400 *)
  | InvalidCredentials                                       (* 401 *)
  | AuthInternalError.                                       (* 500 *)

Record Credentials := mkCredentials {
  cred_email : option string;      (* None: the field is absent *)
  cred_password : option string
}.

(** [!s]: absent and the empty string are falsy. *)
Definition truthy_string (s : option string) : option string :=
  match s with
  | Some x => if String.eqb x "" then None else Some x
  | None => None
  end.

Section AccountHandlers.

Variable env : Env.
Variable aenv : AuthEnv.

Definition acct_query {A} (q : AM A) : AM A := fun ac =>
  let ac' := mkAccounts (users ac) (users_id_seq ac) (acct_now ac) (S (acct_queries ac)) in
  if db_fault env (acct_queries ac) then (inl QueryLost, ac') else q ac'.

Definition has_email (e : string) (u : UserRow) : bool := String.eqb (user_email u) e.

(** [INSERT INTO users (email, password_hash) VALUES ($1, $2) RETURNING
    id, email] *)
Definition insert_user (email hash : string) : AM UserRow := fun ac =>
  match varchar 255 email, varchar 255 hash with
  | Some email', Some hash' =>
      if existsb (has_email email') (users ac)
      then (inl DuplicateKey,      (* the refused row has drawn its id all the same *)
            mkAccounts (users ac) (users_id_seq ac + 1) (acct_now ac) (acct_queries ac))
      else
        let row := mkUserRow (users_id_seq ac) email' hash' (acct_now ac) false in
        (inr row, mkAccounts (users ac ++ [row]) (users_id_seq ac + 1)
                             (acct_now ac) (acct_queries ac))
  | _, _ => (inl ValueTooLong, ac)
  end.

(** [SELECT id, email, password_hash FROM users WHERE email = $1]; an
    absent parameter is NULL and matches nothing. *)
Definition select_user (email : option string) : AM (list UserRow) := fun ac =>
  match email with
  | Some e => (inr (List.filter (has_email e) (users ac)), ac)
  | None => (inr [], ac)
  end.

Definition hash_password (password : string) : AM string := fun ac =>
  (inr (bcrypt_hash aenv password (acct_queries ac)), ac).

Definition sign_for (u : UserRow) : AM string := fun ac =>
  (inr (jwt_sign aenv (mkTokenUser (user_row_id u) (user_email u)) (acct_now ac)), ac).

(** POST /api/auth/register: the [try] block. *)
Definition register_body (c : Credentials) : AM AuthResponse :=
  match truthy_string (cred_email c), truthy_string (cred_password c) with
  | Some email, Some password =>
      if negb (isEmail aenv email) then acct_ret (AuthBadRequest "Invalid email format")
      else if (String.length password <? 8)%nat
      then acct_ret (AuthBadRequest "Password must be at least 8 characters")
      else
        let+ hashedPassword := hash_password password in
        let+ row := acct_query (insert_user email hashedPassword) in
        let+ token := sign_for row in
        acct_ret (Registered token (user_row_id row) (user_email row))
  | _, _ => acct_ret (AuthBadRequest "Email and password required")
  end.

(** ... and its [catch]. *)
Definition register_handler (c : Credentials) : Accounts -> AuthResponse * Accounts := fun ac =>
  match register_body c ac with
  | (inr r, ac') => (r, ac')
  | (inl DuplicateKey, ac') => (AuthBadRequest "Email already exists", ac')
  | (inl _, ac') => (AuthInternalError, ac')
  end.

(** [bcrypt.compare(password, user.password_hash)] *)
Definition compare_password (password : option string) (hash : string) : AM bool := fun ac =>
  match password with
  | Some p => (inr (bcrypt_compare aenv p hash), ac)
  | None => (inl IllegalArguments, ac)
  end.

(** POST /api/auth/login *)
Definition login_body (c : Credentials) : AM AuthResponse :=
  let+ rows := acct_query (select_user (cred_email c)) in
  match rows with
  | [] => acct_ret InvalidCredentials
  | user :: _ =>
      let+ validPassword := compare_password (cred_password c) (password_hash user) in
      if negb validPassword then acct_ret InvalidCredentials
      else
        let+ token := sign_for user in
        acct_ret (LoggedIn token (user_row_id user) (user_email user))
  end.

Definition login_handler (c : Credentials) : Accounts -> AuthResponse * Accounts := fun ac =>
  match login_body c ac with
  | (inr r, ac') => (r, ac')
  | (inl _, ac') => (AuthInternalError, ac')
  end.

End AccountHandlers.

(** ** The page script (unnamed/part_000)

    The first version of the shortener runs in the browser alone: an
    array of links, three counters and [localStorage]. What the script
    takes from the browser (the address of the page, the [URL] parser,
    [String.prototype.trim], [Math.random], the clock and its two ways
    of printing a date) is given from the outside. The names are those of
    the script; they live in a module of their own since the server has
    a [generateShortCode] too. *)

Module Prototype.

Record UrlData := mkUrlData {
  id : Z;
  originalUrl : string;
  shortCode : string;
  shortUrl : string;
  clicks : Z;
  createdAt : string;
  createdTime : string
}.

Record Stats := mkStats {
  totalUrls : Z;
  totalClicks : Z;
  todayUrls : Z
}.

Record Browser := mkBrowser {
  origin : string;                    (* window.location.origin *)
  parses : string -> bool;            (* new URL(s) does not throw *)
  trim : string -> string;
  random_code : nat -> string;        (* Math.random().toString(36).substring(2, 8),
                                         at the n-th call *)
  clock : nat -> Z;                   (* the time at the n-th reading *)
  toLocaleDateString : Z -> string;
  toLocaleString : Z -> string
}.

(** The two globals, the elements of the document the script reads and
    writes, [localStorage] and what the user has been shown. The storage
    holds JSON text; the model keeps the value the text stands for, and an
    absent key is [None]. *)
Record Page := mkPage {
  urlDatabase : list UrlData;
  stats : Stats;
  originalUrl_value : string;         (* #originalUrl, value *)
  customAlias_value : string;         (* #customAlias, value *)
  shortUrl_text : string;             (* #shortUrl, textContent *)
  result_shown : bool;                (* #result, display: block *)
  stats_text : Stats;                 (* #totalUrls, #totalClicks, #todayUrls *)
  urlList : list UrlData;             (* the items #urlList was rendered from *)
  stored_urlDatabase : option (list UrlData);
  stored_stats : option Stats;
  alerts : list string;
  opened : list string;               (* window.open(url, '_blank') *)
  draws : nat;                        (* calls of Math.random so far *)
  clock_reads : nat                   (* readings of the clock so far *)
}.

Definition alert (msg : string) (p : Page) : Page :=
  mkPage (urlDatabase p) (stats p) (originalUrl_value p) (customAlias_value p)
         (shortUrl_text p) (result_shown p) (stats_text p) (urlList p)
         (stored_urlDatabase p) (stored_stats p) (alerts p ++ [msg]) (opened p)
         (draws p) (clock_reads p).

Definition set_draws (n : nat) (p : Page) : Page :=
  mkPage (urlDatabase p) (stats p) (originalUrl_value p) (customAlias_value p)
         (shortUrl_text p) (result_shown p) (stats_text p) (urlList p)
         (stored_urlDatabase p) (stored_stats p) (alerts p) (opened p)
         n (clock_reads p).

Definition updateStats (p : Page) : Page :=
  mkPage (urlDatabase p) (stats p) (originalUrl_value p) (customAlias_value p)
         (shortUrl_text p) (result_shown p) (stats p) (urlList p)
         (stored_urlDatabase p) (stored_stats p) (alerts p) (opened p)
         (draws p) (clock_reads p).

(** [urlDatabase.slice(0, 5)], rendered. *)
Definition displayUrlList (p : Page) : Page :=
  mkPage (urlDatabase p) (stats p) (originalUrl_value p) (customAlias_value p)
         (shortUrl_text p) (result_shown p) (stats_text p) (firstn 5 (urlDatabase p))
         (stored_urlDatabase p) (stored_stats p) (alerts p) (opened p)
         (draws p) (clock_reads p).

Definition saveData (p : Page) : Page :=
  mkPage (urlDatabase p) (stats p) (originalUrl_value p) (customAlias_value p)
         (shortUrl_text p) (result_shown p) (stats_text p) (urlList p)
         (Some (urlDatabase p)) (Some (stats p)) (alerts p) (opened p)
         (draws p) (clock_reads p).

(** [urlDatabase.find(item => item.shortCode === code)] *)
Definition find_code (code : string) (db : list UrlData) : option UrlData :=
  List.find (fun item => String.eqb (shortCode item) code) db.

(** The [do ... while] of [generateShortCode], at most [fuel] rounds of
    it: the code and the number of draws made, or [None] while it still
    runs. *)
Fixpoint draw_code (b : Browser) (fuel : nat) (db : list UrlData) (n : nat)
    : option (string * nat) :=
  match fuel with
  | O => None
  | S fuel' =>
      let code := random_code b n in
      match find_code code db with
      | Some _ => draw_code b fuel' db (S n)
      | None => Some (code, S n)
      end
  end.

(** The result is the code, or [None] for [null]; the outer [None] is a
    loop that has not ended. *)
Definition generateShortCode (b : Browser) (fuel : nat) (customAlias : string) (p : Page)
    : option (option string * Page) :=
  if negb (String.eqb customAlias "") then
    match find_code customAlias (urlDatabase p) with
    | Some _ =>
        Some (None, alert "This custom alias is already taken. Please choose another." p)
    | None => Some (Some customAlias, p)
    end
  else
    match draw_code b fuel (urlDatabase p) (draws p) with
    | Some (code, n) => Some (Some code, set_draws n p)
    | None => None
    end.

(** What [shortenUrl] does once it has a code: lines 56 to 80. *)
Definition add_link (b : Browser) (originalUrl shortCode : string) (p : Page) : Page :=
  let shortUrl := origin b ++ "/" ++ shortCode in
  let urlData :=
    mkUrlData (clock b (clock_reads p)) originalUrl shortCode shortUrl 0
              (toLocaleDateString b (clock b (S (clock_reads p))))
              (toLocaleString b (clock b (S (S (clock_reads p))))) in
  let p1 :=
    mkPage (urlData :: urlDatabase p)
           (mkStats (totalUrls (stats p) + 1) (totalClicks (stats p))
                    (todayUrls (stats p) + 1))
           (originalUrl_value p) (customAlias_value p)
           shortUrl true (stats_text p) (urlList p)
           (stored_urlDatabase p) (stored_stats p) (alerts p) (opened p)
           (draws p) (S (S (S (clock_reads p)))) in
  let p2 := saveData (displayUrlList (updateStats p1)) in
  mkPage (urlDatabase p2) (stats p2) "" ""
         (shortUrl_text p2) (result_shown p2) (stats_text p2) (urlList p2)
         (stored_urlDatabase p2) (stored_stats p2) (alerts p2) (opened p2)
         (draws p2) (clock_reads p2).

Definition shortenUrl (b : Browser) (fuel : nat) (p : Page) : option Page :=
  let originalUrl := originalUrl_value p in
  let customAlias := trim b (customAlias_value p) in
  if String.eqb originalUrl "" then Some (alert "Please enter a valid URL" p)
  else if negb (parses b originalUrl) then Some (alert "Invalid URL format!" p)
  else
    match generateShortCode b fuel customAlias p with
    | None => None
    | Some (None, p1) => Some p1
    | Some (Some shortCode, p1) =>
        if String.eqb shortCode "" then Some p1      (* if (!shortCode) return *)
        else Some (add_link b originalUrl shortCode p1)
    end.

(** [urlData.clicks++] on the first item of the array with that address. *)
Fixpoint click_first (shortUrl' : string) (db : list UrlData) : list UrlData :=
  match db with
  | [] => []
  | item :: rest =>
      if String.eqb (shortUrl item) shortUrl'
      then mkUrlData (id item) (originalUrl item) (shortCode item) (shortUrl item)
                     (clicks item + 1) (createdAt item) (createdTime item) :: rest
      else item :: click_first shortUrl' rest
  end.

Definition openUrl (p : Page) : Page :=
  let shortUrl' := shortUrl_text p in
  match List.find (fun item => String.eqb (shortUrl item) shortUrl') (urlDatabase p) with
  | Some urlData =>
      let p1 :=
        mkPage (click_first shortUrl' (urlDatabase p))
               (mkStats (totalUrls (stats p)) (totalClicks (stats p) + 1)
                        (todayUrls (stats p)))
               (originalUrl_value p) (customAlias_value p)
               (shortUrl_text p) (result_shown p) (stats_text p) (urlList p)
               (stored_urlDatabase p) (stored_stats p) (alerts p) (opened p)
               (draws p) (clock_reads p) in
      let p2 := saveData (updateStats p1) in
      mkPage (urlDatabase p2) (stats p2) (originalUrl_value p2) (customAlias_value p2)
             (shortUrl_text p2) (result_shown p2) (stats_text p2) (urlList p2)
             (stored_urlDatabase p2) (stored_stats p2) (alerts p2)
             (opened p2 ++ [originalUrl urlData])
             (draws p2) (clock_reads p2)
  | None => p
  end.

(** The sample of [loadData]. *)
Definition demo (b : Browser) (p : Page) : list UrlData :=
  [mkUrlData 1 "https://www.example.com/very-long-url-that-needs-shortening"
             "demo1" (origin b ++ "/" ++ "demo1") 25
             (toLocaleDateString b (clock b (clock_reads p)))
             (toLocaleString b (clock b (S (clock_reads p))))].

Definition loadData (b : Browser) (p : Page) : Page :=
  let p1 :=
    match stored_urlDatabase p, stored_stats p with
    | Some storedUrls, Some storedStats =>
        mkPage storedUrls storedStats (originalUrl_value p) (customAlias_value p)
               (shortUrl_text p) (result_shown p) (stats_text p) (urlList p)
               (stored_urlDatabase p) (stored_stats p) (alerts p) (opened p)
               (draws p) (clock_reads p)
    | _, _ =>
        let urls := demo b p in
        mkPage urls
               (mkStats (Z.of_nat (length urls))
                        (fold_left (fun sum url => sum + clicks url) urls 0)
                        (Z.of_nat (length urls)))
               (originalUrl_value p) (customAlias_value p)
               (shortUrl_text p) (result_shown p) (stats_text p) (urlList p)
               (stored_urlDatabase p) (stored_stats p) (alerts p) (opened p)
               (draws p) (S (S (clock_reads p)))
    end in
  displayUrlList (updateStats p1).

(** What happens on the page once it is loaded: the user fills in the
    form, submits it, or follows the link that is shown. *)
Inductive Event :=
  | Fill (url alias : string)
  | Submit (fuel : nat)
  | Open.

Definition fill (url alias : string) (p : Page) : Page :=
  mkPage (urlDatabase p) (stats p) url alias
         (shortUrl_text p) (result_shown p) (stats_text p) (urlList p)
         (stored_urlDatabase p) (stored_stats p) (alerts p) (opened p)
         (draws p) (clock_reads p).

Definition handle (b : Browser) (ev : Event) (p : Page) : option Page :=
  match ev with
  | Fill url alias => Some (fill url alias p)
  | Submit fuel => shortenUrl b fuel p
  | Open => Some (openUrl p)
  end.

Fixpoint run (b : Browser) (evs : list Event) (p : Page) : option Page :=
  match evs with
  | [] => Some p
  | ev :: evs' =>
      match handle b ev p with
      | Some p' => run b evs' p'
      | None => None
      end
  end.

End Prototype.

(** * Vocabulary of the properties *)

(** ** The alphabet *)



Fixpoint string_forall (P : ascii -> bool) (s : string) : bool :=
  match s with
  | EmptyString => true
  | String c s' => P c && string_forall P s'
  end.

(** ** Candidates of the retry loop *)

(** The string [generate_chars] builds from draws [p], [p+1], ... *)
Fixpoint code_from (env : Env) (n p : nat) (acc : string) : string :=
  match n with
  | O => acc
  | S n' => code_from env n' (S p) (acc ++ charAt chars (random_index env p))
  end.

(** The candidate drawn when [p] draws have been made. *)
Definition code_at (env : Env) (p : nat) : string := code_from env 7 p "".


Definition taken (c : string) (st : State) : bool := existsb (has_code c) (urls st).


(** ** Well-formed worlds *)

(** [short_code ... UNIQUE]. *)
Definition codes_unique (st : State) : Prop := NoDup (map short_code (urls st)).

(** [short_code VARCHAR(20)]. *)
Definition codes_fit (st : State) : Prop :=
  forall r, In r (urls st) -> (String.length (short_code r) <= 20)%nat.

(** Two copies of one link: they may differ in [click_count] and
    [is_active] only, the two columns that change after creation. *)
Definition same_link (r r' : UrlRow) : Prop :=
  row_id r = row_id r' /\ original_url r = original_url r' /\
  short_code r = short_code r' /\ expires_at r = expires_at r'.

(** Every cache entry is a copy of a stored row, under a key that the
    [short_code] column stores as that row's code. *)
Definition cache_coherent (st : State) : Prop :=
  forall k r e, cache st !! k = Some (r, e) ->
    exists r', In r' (urls st) /\ same_link r' r /\ varchar 20 k = Some (short_code r').


Definition well_formed (st : State) : Prop :=
  codes_unique st /\ codes_fit st /\ cache_coherent st.

(** ** Triples for the handler monad *)


(** ** Frames and fresh rows *)

(** [m] leaves the part [f] of the world alone. *)
Definition keeps {A X} (f : State -> X) (m : M A) : Prop :=
  forall st, f (snd (m st)) = f st.

(** The tables: what the Durable Store holds. *)
Definition store (st : State) : list UrlRow * list ClickRow := (urls st, analytics st).

(** What an INSERT into [urls] appends. *)
Definition fresh_row (st : State) (row : UrlRow) : Prop :=
  row_id row = urls_id_seq st /\ created_at row = now st /\
  is_active row = true /\ click_count row = 0.

(** The value [compute_expiresAt] returns at time [t]. *)
Definition expiry_for (d : option Z) (t : Z) : option Z :=
  match truthy_days d with
  | Some n => Some (t + n * MS_PER_DAY)
  | None => None
  end.

(** ** Rows, events and cache answers *)



(** What a working cache answers for key [k]. *)
Definition cached_live (k : string) (st : State) : option UrlRow :=
  match cache st !! k with
  | Some (r, e) => if now st <? e then Some r else None
  | None => None
  end.

(** The world after [setCachedUrl k r]. *)
Definition after_setex (env : Env) (k : string) (r : UrlRow) (st : State) : State :=
  if cache_fault env (cache_ops st) then set_cache_ops (S (cache_ops st)) st
  else set_cache (<[k := (r, now st + CACHE_TTL_MS)]> (cache st))
                 (set_cache_ops (S (cache_ops st)) st).

(** The UPDATE of the click task would overflow the counter. *)
Definition at_ceiling (id : Z) (st : State) : bool :=
  existsb (fun r => (row_id r =? id) && (INT_MAX <? click_count r + 1)) (urls st).

Definition known_id (id : Z) (st : State) : bool :=
  existsb (fun r => row_id r =? id) (urls st).

(** The event the click task appends in world [st]. *)
Definition click_row (t : ClickTask) (st : State) : ClickRow :=
  mkClickRow (analytics_id_seq st) (task_url_id t) (now st)
             (req_ip (task_ctx t)) (req_user_agent (task_ctx t))
             (req_referer (task_ctx t)).

(** The world in which a resolve goes on after a cache miss. *)
Definition after_miss (st : State) : State :=
  set_db_ops (S (db_ops st)) (set_cache_ops (S (cache_ops st)) st).

(** The cache has nothing to offer for [k]: the call fails, or there is no
    entry, or the entry is past its time. *)
Definition cache_misses (env : Env) (k : string) (st : State) : Prop :=
  cache_fault env (cache_ops st) = true \/ cached_live k st = None.


(** ** Worlds to try the properties on *)

(** An outside where nothing fails, every URL is valid and every draw is
    index 0: all candidates are "AAAAAAA". *)
Definition quiet : Env :=
  mkEnv (fun _ => 0%nat) (fun _ => false) (fun _ => false) (fun _ => true) None.


(** As [quiet], but the first [pool.query] fails. *)
Definition first_query_lost : Env :=
  mkEnv (fun _ => 0%nat) (fun k => (k =? 0)%nat) (fun _ => false) (fun _ => true) None.

(** As [quiet], but the second [pool.query] fails. *)
Definition second_query_lost : Env :=
  mkEnv (fun _ => 0%nat) (fun k => (k =? 1)%nat) (fun _ => false) (fun _ => true) None.

(** A server just started, at time 1000. *)
Definition empty_world : State := mkState [] [] 1 1 ∅ [] 1000 0 0 0.

Definition row_AAAAAAA : UrlRow :=
  mkUrlRow 1 7 "https://example.com/first" "AAAAAAA" None 500 None true 0.

(** One link stored, nothing cached. *)
Definition one_link : State := mkState [row_AAAAAAA] [] 2 1 ∅ [] 1000 0 0 0.

Definition a_visitor : ReqCtx := mkReqCtx "203.0.113.9" (Some "curl/8.0") None.

(** [one_link] with a click on its link waiting in the queue. *)
Definition one_click_pending : State :=
  mkState [row_AAAAAAA] [] 2 1 ∅ [mkClickTask 1 a_visitor] 1000 0 0 0.


Definition row_old : UrlRow :=
  mkUrlRow 1 7 "https://example.com/sale" "sale" (Some "sale") 0 (Some 900) true 3.

(** One active link that expired at time 900; the clock shows 1000 and
    nothing is cached. *)
Definition expired_link : State := mkState [row_old] [] 2 1 ∅ [] 1000 0 0 0.


Definition promo_request : ShortenReq :=
  mkShortenReq "https://example.com/promo" (Some "promo") None 7.


(** As [quiet], but every Redis call fails. *)
Definition cache_down : Env :=
  mkEnv (fun _ => 0%nat) (fun _ => false) (fun _ => true) (fun _ => true) None.




(** Two users ask for the alias "promo" at the same time. *)
Definition promo_first : ShortenReq :=
  mkShortenReq "https://example.com/a" (Some "promo") None 7.
Definition promo_second : ShortenReq :=
  mkShortenReq "https://example.com/b" (Some "promo") None 8.

(** Both existence checks are answered before either INSERT runs. *)
Definition checks_then_inserts : list Who :=
  [First; Second; First; Second; First; Second].

(** The first request is through before the second starts. *)
Definition one_after_the_other : list Who :=
  [First; First; First; Second; Second; Second].

(** The user's rows as every page cuts them: newest first. *)
Definition listing (uid : Z) (st : State) : list UrlRow :=
  order_by_desc created_at (List.filter (owned_by uid) (urls st)).

(** Sorted downwards by [key]. *)
Definition sorted_desc {A} (key : A -> Z) (l : list A) : Prop :=
  Sorted (fun a b => key b <= key a) l.



(** A request for page [p] of [uid]'s rows, [limit] to the page. *)
Definition page_request (uid limit p : Z) : ListReq := mkListReq uid (Some p) (Some limit).

Definition row_at (t : Z) (uid : Z) (code : string) : UrlRow :=
  mkUrlRow 0 uid "https://example.com/x" code None t None true 0.

(** User 7 owns three rows made at times 10, 30 and 20; user 8 owns one. *)
Definition four_rows : State :=
  mkState [row_at 10 7 "a"; row_at 30 7 "b"; row_at 5 8 "c"; row_at 20 7 "d"]
          [] 5 1 ∅ [] 1000 0 0 0.


Definition click_at (t : Z) (id : Z) : ClickRow := mkClickRow 0 id t "203.0.113.9" None None.

(** The link "AAAAAAA" of user 7 with three clicks, two on day 0 and one
    on day 2, and a click on another link. *)
Definition clicked_world : State :=
  mkState [row_AAAAAAA] [click_at 5 1; click_at 172800001 1; click_at 9 2; click_at 7 1]
          2 5 ∅ [] 1000 0 0 0.

(** The world keeps its books: ids handed out lie below the sequence, and
    no link has more events than its counter says. *)
Definition tallied (st : State) : Prop :=
  (forall r, In r (urls st) -> row_id r < urls_id_seq st) /\
  (forall e, In e (analytics st) -> url_id e < urls_id_seq st) /\
  (forall r, In r (urls st) ->
     Z.of_nat (length (events_of (row_id r) st)) <= click_count r).


(** No space in [s]. *)
Definition spaceless (s : string) : bool :=
  string_forall (fun c => negb (Ascii.eqb c " "%char)) s.


(** Libraries that do nothing surprising: the token signed for user 7 is
    "t7" and verifies as ann's, any other user's is "t" and does not
    verify; a hash is the password after "h:"; ann's and bob's addresses
    are the e-mail addresses. *)
Definition plain_auth : AuthEnv :=
  mkAuthEnv
    (fun t => if String.eqb t "t7" then Some (mkTokenUser 7 "ann@example.com") else None)
    (fun u _ => if tok_userId u =? 7 then "t7" else "t")
    (fun p _ => "h:" ++ p)
    (fun p h => String.eqb ("h:" ++ p) h)
    (fun e => String.eqb e "ann@example.com" || String.eqb e "bob@example.com").

Definition ann : UserRow := mkUserRow 7 "ann@example.com" "h:correct horse" 100 false.

(** One account, ann's; the next id is 8. *)
Definition one_account : Accounts := mkAccounts [ann] 8 1000 0.

(** No account yet; the next id is 7. *)
Definition no_account : Accounts := mkAccounts [] 7 1000 0.

Definition ann_credentials : Credentials :=
  mkCredentials (Some "ann@example.com") (Some "correct horse").

(** The codes of the page's links. *)
Definition script_codes (p : Prototype.Page) : list string :=
  map Prototype.shortCode (Prototype.urlDatabase p).

(** The clicks of all links together. *)
Definition script_clicks (db : list Prototype.UrlData) : Z :=
  fold_right (fun item sum => Prototype.clicks item + sum) 0 db.

(** The three counters count what is in the array. *)
Definition script_counted (p : Prototype.Page) : Prop :=
  Prototype.totalUrls (Prototype.stats p) = Z.of_nat (length (Prototype.urlDatabase p)) /\
  Prototype.totalClicks (Prototype.stats p) = script_clicks (Prototype.urlDatabase p) /\
  Prototype.todayUrls (Prototype.stats p) = Prototype.totalUrls (Prototype.stats p) /\
  Prototype.stats_text p = Prototype.stats p.

(** When both keys are in the storage, they hold what is in memory. *)
Definition script_saved (p : Prototype.Page) : Prop :=
  forall urls st,
    Prototype.stored_urlDatabase p = Some urls -> Prototype.stored_stats p = Some st ->
    urls = Prototype.urlDatabase p /\ st = Prototype.stats p.

(** A browser whose draws are "", "demo1", "k3x9ab", "k3x9ab", ...; the
    strings it is asked to trim have no white space at their ends. *)
Definition a_browser : Prototype.Browser :=
  Prototype.mkBrowser "https://snap.example"
    (fun s => String.prefix "https://" s)
    (fun s => s)
    (fun n => match n with O => "" | 1%nat => "demo1" | _ => "k3x9ab" end)
    (fun n => 1700000000000 + Z.of_nat n)
    (fun _ => "11/14/2023")
    (fun _ => "11/14/2023, 10:13:20 PM").

(** The page as the script starts: nothing in memory, nothing stored,
    nothing shown. *)
Definition first_visit : Prototype.Page :=
  Prototype.mkPage [] (Prototype.mkStats 0 0 0) "" "" "" false (Prototype.mkStats 0 0 0) []
                   None None [] [] 0 0.

(** * Properties *)

(** ** Strings and the alphabet *)




Lemma charAt_chars_out i : (62 <= i)%nat -> charAt chars i = "".
Proof.
  intros Hi. do 62 (destruct i as [|i]; [lia|]). reflexivity.
Qed.

Lemma varchar_fits n s : (String.length s <= n)%nat -> varchar n s = Some s.
Proof.
  intros H. unfold varchar.
  destruct (Nat.leb_spec (String.length s) n); [reflexivity | lia].
Qed.



Lemma has_code_true c r : has_code c r = true <-> short_code r = c.
Proof. unfold has_code. apply String.eqb_eq. Qed.

Lemma existsb_has_code_false c l :
  existsb (has_code c) l = false <-> (forall r, In r l -> short_code r <> c).
Proof.
  split.
  - intros H r Hin Heq.
    assert (existsb (has_code c) l = true) as Ht
      by (apply existsb_exists; exists r; split; [exact Hin | now apply has_code_true]).
    congruence.
  - intros H. destruct (existsb (has_code c) l) eqn:E; [|reflexivity].
    apply existsb_exists in E as (r & Hin & Hr).
    apply has_code_true in Hr. now destruct (H r Hin).
Qed.

Lemma filter_has_code_nil c l :
  existsb (has_code c) l = false -> List.filter (has_code c) l = [].
Proof.
  intros H. induction l as [|r l IH]; simpl in *; [reflexivity|].
  apply orb_false_iff in H as [H1 H2]. rewrite H1. now apply IH.
Qed.


(** ** Equality of worlds, field by field *)

Lemma state_ext (s t : State) :
  urls s = urls t -> analytics s = analytics t ->
  urls_id_seq s = urls_id_seq t -> analytics_id_seq s = analytics_id_seq t ->
  cache s = cache t -> immediate s = immediate t -> now s = now t ->
  rnd_pos s = rnd_pos t -> db_ops s = db_ops t -> cache_ops s = cache_ops t ->
  s = t.
Proof. destruct s, t; simpl; intros; subst; reflexivity. Qed.

Ltac world_eq := apply state_ext; simpl; solve [reflexivity | lia].

(** ** The generator and the retry loop *)

Section Generator.

Variable env : Env.

Lemma generate_chars_eq n acc st :
  generate_chars env n acc st
  = (Ok (code_from env n (rnd_pos st) acc), set_rnd_pos (n + rnd_pos st) st).
Proof.
  revert acc st. induction n as [|n IH]; intros acc st.
  - destruct st; reflexivity.
  - simpl. unfold bind, random_draw. rewrite IH. simpl.
    f_equal. world_eq.
Qed.

Lemma generateShortCode_eq st :
  generateShortCode env st
  = (Ok (code_at env (rnd_pos st)), set_rnd_pos (7 + rnd_pos st) st).
Proof. apply generate_chars_eq. Qed.









End Generator.

(** ** Rules for triples *)







(** ** Well-formed worlds stay well-formed *)


Lemma same_link_refl r : same_link r r.
Proof. unfold same_link. tauto. Qed.


Lemma same_link_bump id r : same_link (bump id r) r.
Proof. unfold bump, same_link. destruct (row_id r =? id); simpl; tauto. Qed.

Lemma map_short_code_bump id l : map short_code (map (bump id) l) = map short_code l.
Proof.
  rewrite List.map_map. apply List.map_ext. intros r.
  apply (same_link_bump id r).
Qed.



















(** ** What each operation leaves alone, and what it changes *)

Section Frames.
Context {X : Type} (f : State -> X).

Lemma keeps_ret {A} (a : A) : keeps f (ret a).
Proof. intros st. reflexivity. Qed.

Lemma keeps_bind {A B} (m : M A) (k : A -> M B) :
  keeps f m -> (forall a, keeps f (k a)) -> keeps f (bind m k).
Proof.
  intros Hm Hk st. unfold bind. specialize (Hm st).
  destruct (m st) as [[a|e|] st']; simpl in *; try exact Hm.
  rewrite <- Hm. apply Hk.
Qed.

Lemma keeps_try_catch {A} (m : M A) d : keeps f m -> keeps f (try_catch m d).
Proof.
  intros Hm st. unfold try_catch. specialize (Hm st).
  destruct (m st) as [[a|e|] st']; exact Hm.
Qed.

Lemma keeps_pool_query {A} env (q : M A) :
  (forall st n, f (set_db_ops n st) = f st) -> keeps f q -> keeps f (pool_query env q).
Proof.
  intros Hf Hq st. unfold pool_query.
  destruct (db_fault env (db_ops st)); simpl; [apply Hf|].
  rewrite Hq. apply Hf.
Qed.

Lemma keeps_respond (body : M Response) st :
  keeps f body -> f (snd (respond body st)) = f st.
Proof.
  intros H. unfold respond. specialize (H st).
  destruct (body st) as [[a|e|] st']; exact H.
Qed.

Lemma keeps_unique_code_loop env fuel :
  (forall st n, f (set_db_ops n st) = f st) ->
  (forall st n, f (set_rnd_pos n st) = f st) ->
  keeps f (unique_code_loop env fuel).
Proof.
  intros H1 H2. induction fuel as [|fuel IH]; [intros st; reflexivity|].
  simpl. apply keeps_bind.
  - intros st. rewrite generateShortCode_eq. apply H2.
  - intros c. apply keeps_bind.
    + apply keeps_pool_query; [exact H1 | intros st; reflexivity].
    + intros ex. destruct (length ex =? 0)%nat; [apply keeps_ret | exact IH].
Qed.

Lemma keeps_getCachedUrl env k :
  (forall st n, f (set_cache_ops n st) = f st) -> keeps f (getCachedUrl env k).
Proof.
  intros H. apply keeps_try_catch. intros st. unfold redis_get.
  destruct (cache_fault env (cache_ops st)); simpl; [apply H|].
  destruct (cache st !! k) as [[r e]|]; [destruct (now st <? e)|]; apply H.
Qed.

Lemma keeps_setCachedUrl env k r :
  (forall st n, f (set_cache_ops n st) = f st) ->
  (forall st c, f (set_cache c st) = f st) ->
  keeps f (setCachedUrl env k r).
Proof.
  intros H1 H2. apply keeps_try_catch. intros st. unfold redis_setex.
  destruct (cache_fault env (cache_ops st)); simpl; [apply H1|].
  rewrite H2. apply H1.
Qed.

End Frames.

Lemma redirect_keeps_store env c ctx : keeps store (redirect_body env c ctx).
Proof.
  unfold redirect_body. apply keeps_bind; [now apply keeps_getCachedUrl|].
  assert (forall u, keeps store (check_and_redirect u ctx)) as Hc.
  { intros u st. unfold check_and_redirect, bind, current_time, setImmediate, ret.
    destruct (is_expired u (now st)); reflexivity. }
  intros [u|]; [apply Hc|].
  apply keeps_bind; [apply keeps_pool_query; [reflexivity | intros st; reflexivity]|].
  intros [|u rows]; [apply keeps_ret|].
  apply keeps_bind; [now apply keeps_setCachedUrl | intros _; apply Hc].
Qed.

Lemma compute_expiresAt_eq d st : compute_expiresAt d st = (Ok (expiry_for d (now st)), st).
Proof. unfold compute_expiresAt, expiry_for. destruct (truthy_days d); reflexivity. Qed.

Lemma keeps_tail {A B X} (f : State -> X) (m : M A) (k : A -> M B) st :
  (forall a, keeps f (k a)) -> f (snd (bind m k st)) = f (snd (m st)).
Proof.
  intros Hk. unfold bind. destruct (m st) as [[a|e|] st']; simpl; try reflexivity.
  apply Hk.
Qed.

Lemma insert_url_urls uid url code alias exp st :
  let st' := snd (insert_url uid url code alias exp st) in
  urls st' = urls st \/
  exists row : UrlRow, urls st' = (urls st ++ [row])%list /\ fresh_row st row.
Proof.
  unfold insert_url.
  destruct (varchar 20 code) as [code'|]; [|left; reflexivity].
  destruct (varchar_opt 50 alias) as [alias'|]; [|left; reflexivity].
  destruct (existsb (has_code code') (urls st)); [left; reflexivity|].
  right. eexists. simpl. split; [reflexivity|]. repeat split.
Qed.

Lemma store_and_reply_urls env req c st :
  let st' := snd (store_and_reply env req c st) in
  urls st' = urls st \/
  exists row : UrlRow, urls st' = (urls st ++ [row])%list /\ fresh_row st row.
Proof.
  intros st'.
  assert (urls st' = urls (snd (pool_query env
            (insert_url (userId req) (originalUrl req) c (customAlias req)
                        (expiry_for (expiresIn req) (now st))) st))) as ->.
  { subst st'. unfold store_and_reply, bind at 1. rewrite compute_expiresAt_eq.
    apply (keeps_tail urls). intros row.
    apply keeps_bind; [now apply keeps_setCachedUrl | intros; apply keeps_ret]. }
  unfold pool_query. destruct (db_fault env (db_ops st)); [left; reflexivity|].
  apply (insert_url_urls _ _ _ _ _ (set_db_ops (S (db_ops st)) st)).
Qed.

Lemma shorten_urls env fuel req st :
  let st' := snd (shorten_handler env fuel req st) in
  urls st' = urls st \/
  exists row : UrlRow, urls st' = (urls st ++ [row])%list /\ click_count row = 0.
Proof.
  assert (forall b : M Response, snd (respond b st) = snd (b st)) as Hr.
  { intros b. unfold respond. destruct (b st) as [[a|e|] st']; reflexivity. }
  unfold shorten_handler. rewrite Hr. unfold shorten_body.
  assert (forall c st1, urls st1 = urls st ->
            let st' := snd (store_and_reply env req c st1) in
            urls st' = urls st \/
            exists row : UrlRow, urls st' = (urls st ++ [row])%list /\ click_count row = 0) as Hs.
  { intros c st1 <-. destruct (store_and_reply_urls env req c st1) as [H|(row & H & Hf)];
      [now left | right; exists row; split; [exact H | apply Hf]]. }
  destruct (negb _); [left; reflexivity|].
  destruct (truthy_alias _) as [alias|].
  - unfold bind, pool_query. destruct (db_fault env (db_ops st)); [left; reflexivity|].
    simpl. destruct (0 <? length _)%nat; [left; reflexivity|]. now apply Hs.
  - unfold bind. pose proof (keeps_unique_code_loop urls env fuel) as Hk.
    specialize (Hk ltac:(reflexivity) ltac:(reflexivity) st).
    destruct (unique_code_loop env fuel st) as [[c|e|] st1]; simpl in *;
      try (left; exact Hk).
    now apply Hs.
Qed.

Lemma click_task_urls env t st :
  let st' := snd (click_task env t st) in
  urls st' = urls st \/ urls st' = map (bump (task_url_id t)) (urls st).
Proof.
  unfold click_task, try_catch, click_task_body, bind, pool_query, update_click_count,
    insert_analytics.
  destruct (db_fault env (db_ops st)); [left; reflexivity|]. simpl.
  destruct (existsb _ (urls st)); [left; reflexivity|]. simpl.
  destruct (db_fault env (S (db_ops st))); [right; reflexivity|].
  destruct (existsb _ _); right; reflexivity.
Qed.

Lemma exec_urls env op st :
  match op with
  | Allocate _ _ =>
      urls (exec env op st) = urls st \/
      exists row : UrlRow,
        urls (exec env op st) = (urls st ++ [row])%list /\ click_count row = 0
  | Resolve _ _ => urls (exec env op st) = urls st
  | RecordClick =>
      urls (exec env op st) = urls st \/
      exists id, urls (exec env op st) = map (bump id) (urls st)
  end.
Proof.
  destruct op as [fuel req|c ctx|]; simpl.
  - apply shorten_urls.
  - unfold redirect_handler.
    apply (keeps_respond urls). intros st1.
    pose proof (redirect_keeps_store env c ctx st1) as H. now injection H.
  - unfold run_immediate. destruct (immediate st) as [|t q]; [now left|].
    destruct (click_task_urls env t (set_immediate q st)) as [H|H]; [now left|].
    right. now exists (task_url_id t).
Qed.

(** ** The handlers, equation by equation *)


Lemma insert_url_taken uid url code alias exp st code' alias' :
  varchar 20 code = Some code' -> varchar_opt 50 alias = Some alias' ->
  taken code' st = true ->
  insert_url uid url code alias exp st = (Throw UniqueViolation, st).
Proof.
  unfold insert_url, taken. intros -> -> ->. reflexivity.
Qed.

Lemma getCachedUrl_eq env k st :
  getCachedUrl env k st
  = (Ok (if cache_fault env (cache_ops st) then None else cached_live k st),
     set_cache_ops (S (cache_ops st)) st).
Proof.
  unfold getCachedUrl, try_catch, redis_get, cached_live.
  destruct (cache_fault env (cache_ops st)); [reflexivity|].
  destruct (cache st !! k) as [[r e]|]; [destruct (now st <? e)|]; reflexivity.
Qed.

Lemma setCachedUrl_eq env k r st :
  setCachedUrl env k r st
  = (Ok tt, after_setex env k r st).
Proof.
  unfold setCachedUrl, try_catch, redis_setex, after_setex.
  destruct (cache_fault env (cache_ops st)); reflexivity.
Qed.


Lemma click_task_eq env t st :
  click_task env t st
  = (Ok tt,
     let st1 := set_db_ops (S (db_ops st)) st in
     if db_fault env (db_ops st) || at_ceiling (task_url_id t) st then st1
     else
       let st2 := set_db_ops (S (S (db_ops st)))
                    (set_urls (map (bump (task_url_id t)) (urls st)) st) in
       if db_fault env (S (db_ops st)) || negb (known_id (task_url_id t) st2) then st2
       else set_analytics_id_seq (analytics_id_seq st + 1)
              (set_analytics (analytics st ++ [click_row t st]) st2)).
Proof.
  unfold click_task, try_catch, click_task_body, bind, pool_query, update_click_count,
    insert_analytics, at_ceiling, known_id.
  destruct (db_fault env (db_ops st)); [reflexivity|]. simpl.
  destruct (existsb _ (urls st)); [reflexivity|]. simpl.
  destruct (db_fault env (S (db_ops st))); [reflexivity|]. simpl.
  destruct (existsb _ _); reflexivity.
Qed.

Lemma known_id_bump id st :
  existsb (fun r => row_id r =? id) (map (bump id) (urls st)) = known_id id st.
Proof.
  unfold known_id. induction (urls st) as [|r l IH]; [reflexivity|].
  simpl. rewrite IH. f_equal. unfold bump. destruct (row_id r =? id) eqn:E; simpl; [|exact E].
  exact E.
Qed.

Lemma click_count_bump id r :
  click_count (bump id r) = click_count r \/ click_count (bump id r) = click_count r + 1.
Proof. unfold bump. destruct (row_id r =? id); simpl; auto. Qed.

(** ** More on the retry loop *)







(** ** Resolving a code *)

Lemma check_and_redirect_eq u ctx st :
  check_and_redirect u ctx st
  = if is_expired u (now st) then (Ok Gone, st)
    else (Ok (Redirect (original_url u)),
          set_immediate (immediate st ++ [mkClickTask (row_id u) ctx]) st).
Proof.
  unfold check_and_redirect, bind, current_time, setImmediate, ret.
  destruct (is_expired u (now st)); reflexivity.
Qed.

Lemma redirect_hit env c ctx st u :
  cache_fault env (cache_ops st) = false -> cached_live c st = Some u ->
  redirect_body env c ctx st
  = check_and_redirect u ctx (set_cache_ops (S (cache_ops st)) st).
Proof.
  intros Hf Hl. unfold redirect_body, bind. rewrite getCachedUrl_eq, Hf, Hl. reflexivity.
Qed.

Lemma redirect_miss env c ctx st :
  cache_misses env c st -> db_fault env (db_ops st) = false ->
  redirect_body env c ctx st
  = match List.filter (fun r => has_code c r && is_active r) (urls st) with
    | [] => (Ok NotFound, after_miss st)
    | u :: _ => check_and_redirect u ctx (after_setex env c u (after_miss st))
    end.
Proof.
  intros Hm Hf. unfold redirect_body, bind. rewrite getCachedUrl_eq.
  assert ((if cache_fault env (cache_ops st) then None else cached_live c st) = None) as ->
    by (destruct Hm as [-> | ->]; [reflexivity | now destruct (cache_fault _ _)]).
  unfold pool_query, select_active_by_code. simpl. rewrite Hf.
  change (set_db_ops (S (db_ops st)) (set_cache_ops (S (cache_ops st)) st))
    with (after_miss st).
  destruct (List.filter _ (urls st)) as [|u rows]; [reflexivity|].
  rewrite setCachedUrl_eq. reflexivity.
Qed.

Lemma hit_or_miss env c st :
  (cache_fault env (cache_ops st) = false /\ exists u, cached_live c st = Some u) \/
  cache_misses env c st.
Proof.
  unfold cache_misses.
  destruct (cache_fault env (cache_ops st)); [right; now left|].
  destruct (cached_live c st) as [u|]; [left; eauto | right; now right].
Qed.

Lemma filter_andb {A} (f g : A -> bool) l :
  List.filter (fun x => f x && g x) l = List.filter g (List.filter f l).
Proof.
  induction l as [|a l IH]; simpl; [reflexivity|].
  destruct (f a); simpl; [|exact IH].
  destruct (g a); now rewrite IH.
Qed.

Lemma filter_unique_code l r :
  NoDup (map short_code l) -> In r l -> List.filter (has_code (short_code r)) l = [r].
Proof.
  induction l as [|a l IH]; intros Hnd Hin; [destruct Hin|].
  simpl in Hnd. apply NoDup_cons in Hnd as [Ha Hnd]. simpl.
  destruct Hin as [->|Hin].
  - unfold has_code at 1. rewrite String.eqb_refl. f_equal.
    apply filter_has_code_nil, existsb_has_code_false.
    intros x Hx Heq. apply Ha. rewrite <- Heq.
    apply list_elem_of_In, in_map, Hx.
  - destruct (has_code (short_code r) a) eqn:E; [|now apply IH].
    apply has_code_true in E. exfalso. apply Ha. rewrite E.
    apply list_elem_of_In, in_map, Hin.
Qed.

Lemma unique_row st a b :
  codes_unique st -> In a (urls st) -> In b (urls st) ->
  short_code a = short_code b -> a = b.
Proof.
  intros Hu Ha Hb Heq.
  pose proof (filter_unique_code _ _ Hu Hb) as Hf.
  assert (In a (List.filter (has_code (short_code b)) (urls st))) as Hin
    by (apply filter_In; split; [exact Ha | now apply has_code_true]).
  rewrite Hf in Hin. destruct Hin as [<-|[]]. reflexivity.
Qed.

Lemma select_active_unique st r :
  codes_unique st -> In r (urls st) -> is_active r = true ->
  List.filter (fun x => has_code (short_code r) x && is_active x) (urls st) = [r].
Proof.
  intros Hu Hin Ha. rewrite filter_andb, (filter_unique_code _ _ Hu Hin).
  simpl. now rewrite Ha.
Qed.


Lemma cached_live_Some k st u :
  cached_live k st = Some u -> exists e, cache st !! k = Some (u, e) /\ now st < e.
Proof.
  unfold cached_live. destruct (cache st !! k) as [[r e]|]; [|discriminate].
  destruct (Z.ltb_spec (now st) e); [|discriminate].
  intros [= ->]. eauto.
Qed.

(** In a well-formed world the cached copy under a stored row's code is a
    copy of that row. *)
Lemma cached_copy st r u e :
  well_formed st -> In r (urls st) -> cache st !! short_code r = Some (u, e) ->
  same_link r u.
Proof.
  intros (Hu & Hf & Hc) Hin Hk.
  destruct (Hc _ _ _ Hk) as (r' & Hin' & Hl & Hv).
  rewrite varchar_fits in Hv by now apply Hf.
  injection Hv as Hv. now rewrite (unique_row st r r' Hu Hin Hin' Hv).
Qed.

Lemma after_setex_frame env k u st :
  store (after_setex env k u st) = store st /\
  immediate (after_setex env k u st) = immediate st /\
  now (after_setex env k u st) = now st /\
  forall k', is_Some (cache st !! k') -> is_Some (cache (after_setex env k u st) !! k').
Proof.
  unfold after_setex. destruct (cache_fault env (cache_ops st)); simpl;
    repeat split; auto.
  intros k' Hk. destruct (decide (k = k')) as [<-|Hne].
  - rewrite lookup_insert_eq. eauto.
  - now rewrite lookup_insert_ne.
Qed.

(** Resolving the code of an active stored row: whatever the cache does,
    the handler goes on with a copy of that row, in a world with the same
    tables, queue and clock and no cache entry lost. *)
Lemma redirect_active env ctx st r :
  well_formed st -> In r (urls st) -> is_active r = true ->
  db_fault env (db_ops st) = false ->
  exists u st1,
    redirect_body env (short_code r) ctx st = check_and_redirect u ctx st1 /\
    same_link r u /\ store st1 = store st /\ immediate st1 = immediate st /\
    now st1 = now st /\
    forall k, is_Some (cache st !! k) -> is_Some (cache st1 !! k).
Proof.
  intros Hwf Hin Hact Hdb.
  destruct (hit_or_miss env (short_code r) st) as [(Hf & u & Hu) | Hm].
  - exists u, (set_cache_ops (S (cache_ops st)) st).
    split; [now apply redirect_hit|].
    apply cached_live_Some in Hu as (e & He & _).
    split; [now apply (cached_copy st r u e)|]. repeat split; auto.
  - exists r, (after_setex env (short_code r) r (after_miss st)).
    rewrite redirect_miss by assumption.
    rewrite select_active_unique by (try apply Hwf; assumption).
    split; [reflexivity|]. split; [apply same_link_refl|].
    destruct (after_setex_frame env (short_code r) r (after_miss st))
      as (H1 & H2 & H3 & H4).
    repeat split; auto.
Qed.



(** Resolving the code of an active stored row that is not expired. *)
Lemma resolve_active env ctx st r :
  well_formed st -> In r (urls st) -> is_active r = true ->
  is_expired r (now st) = false ->
  db_fault env (db_ops st) = false ->
  fst (redirect_handler env (short_code r) ctx st) = Some (Redirect (original_url r)).
Proof.
  intros Hwf Hin Hact Hexp Hdb.
  destruct (redirect_active env ctx st r Hwf Hin Hact Hdb)
    as (u & st1 & Heq & Hl & Hs & Hi & Hn & Hc).
  unfold redirect_handler, respond. rewrite Heq, check_and_redirect_eq.
  destruct Hl as (_ & Hurl & _ & Hex).
  assert (is_expired u (now st1) = false) as ->
    by (unfold is_expired in *; now rewrite <- Hex, Hn).
  simpl. now rewrite Hurl.
Qed.


(** ** What a 201 tells *)



(** ** Records stay, and stay as they were *)




Lemma redirect_miss_fault env c ctx st :
  cache_misses env c st -> db_fault env (db_ops st) = true ->
  redirect_body env c ctx st = (Throw ConnectionError, after_miss st).
Proof.
  intros Hm Hf. unfold redirect_body, bind. rewrite getCachedUrl_eq.
  assert ((if cache_fault env (cache_ops st) then None else cached_live c st) = None) as ->
    by (destruct Hm as [-> | ->]; [reflexivity | now destruct (cache_fault _ _)]).
  unfold pool_query. simpl. now rewrite Hf.
Qed.


(** ** A request running alone is the handler *)

Lemma run_thread_finished env n r st :
  run_thread env n (Finished r) st = (Finished r, st).
Proof. induction n as [|n IH]; simpl; [reflexivity | exact IH]. Qed.

Lemma run_thread_add env a b pc st :
  run_thread env (a + b) pc st
  = let '(pc', st') := run_thread env a pc st in run_thread env b pc' st'.
Proof.
  revert pc st. induction a as [|a IH]; intros pc st; simpl; [reflexivity|].
  destruct (thread_step env pc st) as [pc1 st1]. apply IH.
Qed.

Lemma store_and_reply_unfold env req c st :
  store_and_reply env req c st
  = match pool_query env (insert_url (userId req) (originalUrl req) c (customAlias req)
                                     (expiry_for (expiresIn req) (now st))) st with
    | (Ok row, st1) =>
        (Ok (Created (base_url env ++ "/" ++ c) c (originalUrl req)
                     (expiry_for (expiresIn req) (now st)) (created_at row)),
         after_setex env c row st1)
    | (Throw e, st1) => (Throw e, st1)
    | (Hang, st1) => (Hang, st1)
    end.
Proof.
  unfold store_and_reply, bind. rewrite compute_expiresAt_eq.
  destruct (pool_query env _ st) as [[row|e|] st1]; try reflexivity.
  rewrite setCachedUrl_eq. reflexivity.
Qed.

(** From [AtInsert] two steps do what [store_and_reply] does. *)
Lemma run_thread_store_and_reply env req c st :
  run_thread env 2 (AtInsert req c) st
  = (Finished (match fst (store_and_reply env req c st) with
               | Ok r => r
               | _ => InternalError
               end),
     snd (store_and_reply env req c st)).
Proof.
  rewrite store_and_reply_unfold. simpl. rewrite compute_expiresAt_eq.
  destruct (pool_query env _ st) as [[row|e|] st1]; try reflexivity.
  simpl. rewrite setCachedUrl_eq. reflexivity.
Qed.

(** The rounds of the loop are steps from [AtEntry] back to [AtEntry]. *)
Lemma run_thread_loop env req :
  isURL env (originalUrl req) = true -> truthy_alias (customAlias req) = None ->
  forall fuel st,
    match unique_code_loop env fuel st with
    | (Ok c, st1) =>
        exists k, (k <= fuel)%nat /\
          run_thread env k (AtEntry req) st = (AtInsert req c, st1)
    | (Throw _, st1) =>
        exists k, (k <= fuel)%nat /\
          run_thread env k (AtEntry req) st = (Finished InternalError, st1)
    | (Hang, _) => True
    end.
Proof.
  intros Hu Ha. induction fuel as [|fuel IH]; intros st; [exact I|].
  assert (thread_step env (AtEntry req) st
          = match pool_query env (select_by_code (code_at env (rnd_pos st)))
                    (set_rnd_pos (7 + rnd_pos st) st) with
            | (Ok existing, st') =>
                if (length existing =? 0)%nat
                then (AtInsert req (code_at env (rnd_pos st)), st')
                else (AtEntry req, st')
            | (_, st') => (Finished InternalError, st')
            end) as Hstep.
  { unfold thread_step, validateUrl. rewrite Hu, Ha. cbn [negb].
    now rewrite generateShortCode_eq. }
  assert (forall k, run_thread env (S k) (AtEntry req) st
                    = let '(pc', st') := thread_step env (AtEntry req) st in
                      run_thread env k pc' st') as Hrun1 by reflexivity.
  simpl unique_code_loop. unfold bind. rewrite generateShortCode_eq.
  destruct (pool_query env _ (set_rnd_pos (7 + rnd_pos st) st)) as [[ex|e|] st1] eqn:Hq.
  - destruct (length ex =? 0)%nat eqn:Hl.
    + exists 1%nat. split; [lia|]. rewrite Hrun1, Hstep. reflexivity.
    + specialize (IH st1).
      destruct (unique_code_loop env fuel st1) as [[c|e|] st2]; [| |exact I];
        destruct IH as (k & Hk & Hrun); exists (S k); (split; [lia|]);
        rewrite Hrun1, Hstep; exact Hrun.
  - exists 1%nat. split; [lia|]. rewrite Hrun1, Hstep. reflexivity.
  - exact I.
Qed.

Lemma run_thread_S env k pc st :
  run_thread env (S k) pc st
  = let '(pc', st') := thread_step env pc st in run_thread env k pc' st'.
Proof. reflexivity. Qed.

Lemma thread_step_invalid env req st :
  isURL env (originalUrl req) = false ->
  thread_step env (AtEntry req) st = (Finished (BadRequest "Invalid URL format"), st).
Proof. intros Hu. unfold thread_step, validateUrl. now rewrite Hu. Qed.

Lemma thread_step_alias env req alias st :
  isURL env (originalUrl req) = true -> truthy_alias (customAlias req) = Some alias ->
  thread_step env (AtEntry req) st
  = match pool_query env (select_by_code alias) st with
    | (Ok existingAlias, st') =>
        if (0 <? length existingAlias)%nat
        then (Finished (BadRequest "Custom alias already taken"), st')
        else (AtInsert req alias, st')
    | (_, st') => (Finished InternalError, st')
    end.
Proof. intros Hu Ha. unfold thread_step, validateUrl. now rewrite Hu, Ha. Qed.

(** Whatever the handler answers, the request stepping alone reaches the
    same answer in the same world. *)
Lemma run_thread_alone env fuel req st r st' :
  shorten_handler env fuel req st = (Some r, st') ->
  run_thread env (fuel + 3) (AtEntry req) st = (Finished r, st').
Proof.
  unfold shorten_handler, respond, shorten_body, validateUrl. intros H.
  destruct (isURL env (originalUrl req)) eqn:Hu; cbn [negb] in H.
  2:{ injection H as <- <-.
      replace (fuel + 3)%nat with (S (fuel + 2)) by lia.
      rewrite run_thread_S, thread_step_invalid by exact Hu.
      apply run_thread_finished. }
  destruct (truthy_alias (customAlias req)) as [alias|] eqn:Ha.
  - replace (fuel + 3)%nat with (S (2 + fuel)) by lia.
    rewrite run_thread_S, (thread_step_alias env req alias) by assumption.
    unfold bind in H.
    destruct (pool_query env (select_by_code alias) st) as [[ex|e|] st1].
    + destruct (0 <? length ex)%nat.
      * injection H as <- <-. apply run_thread_finished.
      * rewrite run_thread_add, run_thread_store_and_reply.
        destruct (store_and_reply env req alias st1) as [[r'|e|] st2]; simpl in *;
          try discriminate; injection H as <- <-; apply run_thread_finished.
    + injection H as <- <-. apply run_thread_finished.
    + discriminate.
  - unfold bind in H. pose proof (run_thread_loop env req Hu Ha fuel st) as Hl.
    destruct (unique_code_loop env fuel st) as [[c|e|] st1]; [| |discriminate].
    + destruct Hl as (k & Hk & Hrun).
      replace (fuel + 3)%nat with (k + (2 + (fuel - k + 1)))%nat by lia.
      rewrite run_thread_add, Hrun, run_thread_add, run_thread_store_and_reply.
      destruct (store_and_reply env req c st1) as [[r'|e|] st2]; simpl in *;
        try discriminate; injection H as <- <-; apply run_thread_finished.
    + destruct Hl as (k & Hk & Hrun). injection H as <- <-.
      replace (fuel + 3)%nat with (k + (fuel - k + 3))%nat by lia.
      rewrite run_thread_add, Hrun. apply run_thread_finished.
Qed.

(** ** The invariant holds from the start *)



(** * The claims *)

(** ** C1: two requests for one alias *)

(** C1. Two requests carry the alias "promo" into a fresh world with a
    working database. When both existence checks are answered before
    either INSERT runs, the first is answered 201 and the second, whose
    INSERT breaks the UNIQUE constraint, 500 and not 400; one record is
    stored. When the first is through before the second starts, the second
    is answered 400 "Custom alias already taken". *)
Theorem same_alias_race_answers_500 :
  (let '(a, b, st) := run_schedule quiet checks_then_inserts
                        (AtEntry promo_first) (AtEntry promo_second) empty_world in
   a = Finished (Created "https://linksnap.io/promo" "promo" "https://example.com/a"
                         None 1000) /\
   b = Finished InternalError /\
   map original_url (urls st) = ["https://example.com/a"]) /\
  status InternalError = 500 /\
  (let '(a, b, st) := run_schedule quiet one_after_the_other
                        (AtEntry promo_first) (AtEntry promo_second) empty_world in
   a = Finished (Created "https://linksnap.io/promo" "promo" "https://example.com/a"
                         None 1000) /\
   b = Finished (BadRequest "Custom alias already taken") /\
   map original_url (urls st) = ["https://example.com/a"]).
Proof. vm_compute. repeat split. Qed.

(** ** C2: the retry loop *)




(** ** C3: a generated code and its round trip *)



(** ** C4: inactive links *)




(** ** C5: the click task *)

(** C5, as stated, fails: the UPDATE of [click_count] is lost, the INSERT
    into [analytics] that follows it in the same [try] block is never
    issued (one query was made, not two), and no event is stored; in the
    same world with a working database the event is stored. *)
Lemma lost_update_skips_event :
  let st := run_immediate first_query_lost one_click_pending in
  analytics st = [] /\ db_ops st = 1%nat /\
  db_fault first_query_lost 1 = false /\
  length (analytics (run_immediate quiet one_click_pending)) = 1%nat.
Proof. vm_compute. repeat split. Qed.

(** C5, amended. The click task never throws. Its two queries run in
    order inside one guarded block: when the UPDATE fails nothing is
    written at all; when the UPDATE succeeds and the INSERT fails the
    increment stays; when both succeed the count is incremented and the
    event appended. *)
Theorem click_task_swallows_in_order env t st :
  fst (click_task env t st) = Ok tt /\
  (db_fault env (db_ops st) = true ->
     store (snd (click_task env t st)) = store st) /\
  (db_fault env (db_ops st) = false -> at_ceiling (task_url_id t) st = false ->
     db_fault env (S (db_ops st)) = true ->
     urls (snd (click_task env t st)) = map (bump (task_url_id t)) (urls st) /\
     analytics (snd (click_task env t st)) = analytics st) /\
  (db_fault env (db_ops st) = false -> at_ceiling (task_url_id t) st = false ->
     db_fault env (S (db_ops st)) = false -> known_id (task_url_id t) st = true ->
     urls (snd (click_task env t st)) = map (bump (task_url_id t)) (urls st) /\
     analytics (snd (click_task env t st)) = (analytics st ++ [click_row t st])%list).
Proof.
  rewrite click_task_eq. simpl.
  split; [reflexivity|]. split; [intros ->; reflexivity|]. split.
  - intros Hu Hc Hi. rewrite Hu, Hc, Hi. split; reflexivity.
  - intros Hu Hc Hi Hk. rewrite Hu, Hc, Hi. simpl.
    change (known_id (task_url_id t) (set_db_ops (S (S (db_ops st)))
              (set_urls (map (bump (task_url_id t)) (urls st)) st)))
      with (existsb (fun r => row_id r =? task_url_id t)
              (map (bump (task_url_id t)) (urls st))).
    rewrite known_id_bump, Hk. split; reflexivity.
Qed.

Lemma click_task_swallows_in_order_witness :
  urls (snd (click_task second_query_lost (mkClickTask 1 a_visitor) one_link))
  = [bump 1 row_AAAAAAA] /\
  analytics (snd (click_task second_query_lost (mkClickTask 1 a_visitor) one_link)) = [].
Proof.
  destruct (click_task_swallows_in_order second_query_lost (mkClickTask 1 a_visitor) one_link)
    as (_ & _ & H & _).
  apply H; reflexivity.
Defined.

(** ** C6: custom aliases *)




(** ** C7: expired links *)



(** ** C8: the cache is down *)

(** C8. If the table holds an active record for the code that is not
    expired and the query is answered, the resolve redirects to its
    original URL whatever the Redis calls do; when both of them fail the
    record is read from the table, its click is queued and the cache is
    left as it was. *)
Theorem cache_failures_stay_inside env ctx st r :
  well_formed st -> In r (urls st) -> is_active r = true ->
  is_expired r (now st) = false ->
  db_fault env (db_ops st) = false ->
  fst (redirect_handler env (short_code r) ctx st) = Some (Redirect (original_url r)) /\
  (cache_fault env (cache_ops st) = true -> cache_fault env (S (cache_ops st)) = true ->
   snd (redirect_handler env (short_code r) ctx st)
   = set_immediate (immediate st ++ [mkClickTask (row_id r) ctx])
       (set_cache_ops (S (S (cache_ops st))) (after_miss st))).
Proof.
  intros Hwf Hin Hact Hexp Hdb. split; [now apply resolve_active|].
  intros Hget Hset. unfold redirect_handler, respond.
  rewrite redirect_miss by (try left; assumption).
  rewrite select_active_unique by (try apply Hwf; assumption).
  rewrite check_and_redirect_eq.
  unfold after_setex. simpl. rewrite Hset. simpl. rewrite Hexp. reflexivity.
Qed.

Lemma cache_failures_stay_inside_witness :
  fst (redirect_handler cache_down "AAAAAAA" a_visitor one_link)
  = Some (Redirect "https://example.com/first").
Proof.
  refine (proj1 (cache_failures_stay_inside cache_down a_visitor one_link row_AAAAAAA
                   _ _ _ _ _)); try reflexivity; [|now left].
  repeat split.
  - apply NoDup_singleton.
  - intros r [<-|[]]. simpl. lia.
  - intros k r e Hk. vm_compute in Hk. discriminate.
Defined.

(** ** C9: the click counter *)

(** C9. Under every core operation each record keeps its place and its
    id, and its [click_count] does not go down: allocation and resolution
    leave it as it is, the click task alone moves it, by exactly one; a
    record created by the operation starts at 0; and when the task's
    UPDATE goes through, the count of the clicked record is one more. *)
Theorem click_count_never_decreases env op st :
  (forall i r, nth_error (urls st) i = Some r ->
     exists r', nth_error (urls (exec env op st)) i = Some r' /\
       row_id r' = row_id r /\
       click_count r <= click_count r' /\
       (click_count r' = click_count r \/
        (op = RecordClick /\ click_count r' = click_count r + 1))) /\
  (forall i r', nth_error (urls (exec env op st)) i = Some r' ->
     (length (urls st) <= i)%nat -> click_count r' = 0) /\
  (forall t q, op = RecordClick -> immediate st = t :: q ->
     db_fault env (db_ops st) = false -> at_ceiling (task_url_id t) st = false ->
     urls (exec env op st) = map (bump (task_url_id t)) (urls st) /\
     forall r, In r (urls st) -> row_id r = task_url_id t ->
       click_count (bump (task_url_id t) r) = click_count r + 1).
Proof.
  pose proof (exec_urls env op st) as H.
  split; [|split].
  - intros i r Hi.
    assert (forall id, exists r', nth_error (map (bump id) (urls st)) i = Some r' /\
              row_id r' = row_id r /\ click_count r <= click_count r' /\
              (click_count r' = click_count r \/ click_count r' = click_count r + 1)) as Hb.
    { intros id. exists (bump id r). split; [now apply map_nth_error|].
      destruct (same_link_bump id r) as (-> & _).
      destruct (click_count_bump id r) as [-> | ->]; repeat split; auto; lia. }
    destruct op as [fuel req|c ctx|].
    + destruct H as [-> | (row & -> & _)].
      * exists r. repeat split; auto; lia.
      * exists r. rewrite nth_error_app1 by (apply nth_error_Some; congruence).
        repeat split; auto; lia.
    + rewrite H. exists r. repeat split; auto; lia.
    + destruct H as [-> | (id & ->)].
      * exists r. repeat split; auto; lia.
      * destruct (Hb id) as (r' & H1 & H2 & H3 & [H4|H4]); exists r'; repeat split; auto.
  - intros i r' Hi Hlen.
    destruct op as [fuel req|c ctx|].
    + destruct H as [H | (row & H & Hrow)]; rewrite H in Hi.
      * apply nth_error_None in Hlen. congruence.
      * rewrite nth_error_app2 in Hi by exact Hlen.
        destruct (i - length (urls st))%nat as [|[|j]]; simpl in Hi; congruence.
    + rewrite H in Hi. apply nth_error_None in Hlen. congruence.
    + assert (length (urls (exec env RecordClick st)) = length (urls st)) as Hl
        by (destruct H as [-> | (id & ->)]; [reflexivity | apply length_map]).
      assert (nth_error (urls (exec env RecordClick st)) i = None) as Hn
        by (apply nth_error_None; lia).
      congruence.
  - intros t q -> Hq Hf Hc. split.
    + simpl. unfold run_immediate. rewrite Hq, click_task_eq. simpl.
      rewrite Hf. change (at_ceiling (task_url_id t) (set_immediate q st))
        with (at_ceiling (task_url_id t) st). rewrite Hc. simpl.
      match goal with |- context [if ?b then _ else _] => destruct b end; reflexivity.
    + intros r _ Hr. unfold bump. apply Z.eqb_eq in Hr. rewrite Hr. reflexivity.
Qed.

Lemma click_count_never_decreases_witness :
  nth_error (urls (exec quiet RecordClick one_click_pending)) 0
  = Some (bump 1 row_AAAAAAA) /\
  click_count (bump 1 row_AAAAAAA) = 1.
Proof.
  destruct (click_count_never_decreases quiet RecordClick one_click_pending)
    as (_ & _ & H).
  destruct (H (mkClickTask 1 a_visitor) [] eq_refl eq_refl eq_refl eq_refl) as [Hu Hb].
  split.
  - rewrite Hu. reflexivity.
  - apply (Hb row_AAAAAAA); [now left | reflexivity].
Defined.

(** ** C10: an expiry of zero days *)



(** * Further properties *)

(** ** Listing a user's links *)

Lemma insert_desc_perm {A} (key : A -> Z) x l : Permutation (x :: l) (insert_desc key x l).
Proof.
  induction l as [|y l IH]; simpl; [reflexivity|].
  destruct (key y <=? key x); [reflexivity|].
  rewrite perm_swap. now apply perm_skip.
Qed.

Lemma order_by_desc_perm {A} (key : A -> Z) l : Permutation l (order_by_desc key l).
Proof.
  induction l as [|x l IH]; simpl; [reflexivity|].
  rewrite <- insert_desc_perm. now apply perm_skip.
Qed.

Lemma insert_desc_sorted {A} (key : A -> Z) x l :
  sorted_desc key l -> sorted_desc key (insert_desc key x l).
Proof.
  unfold sorted_desc. induction l as [|y l IH]; intros Hs; simpl.
  - repeat constructor.
  - destruct (Z.leb_spec (key y) (key x)) as [Hle|Hgt].
    + constructor; [exact Hs|]. constructor. exact Hle.
    + inversion Hs as [|? ? Hs' Hhd]; subst. constructor; [now apply IH|].
      destruct l as [|z l]; simpl.
      * constructor. lia.
      * destruct (Z.leb_spec (key z) (key x)); constructor; [lia|].
        now inversion Hhd.
Qed.

Lemma order_by_desc_sorted {A} (key : A -> Z) l : sorted_desc key (order_by_desc key l).
Proof.
  induction l as [|x l IH]; simpl; [constructor | now apply insert_desc_sorted].
Qed.


Lemma in_firstn {A} n (l : list A) x : In x (firstn n l) -> In x l.
Proof. intros H. rewrite <- (firstn_skipn n l). apply in_app_iff. now left. Qed.

Lemma in_skipn {A} n (l : list A) x : In x (skipn n l) -> In x l.
Proof. intros H. rewrite <- (firstn_skipn n l). apply in_app_iff. now right. Qed.

Lemma sorted_skipn {A} (R : A -> A -> Prop) n : forall l, Sorted R l -> Sorted R (skipn n l).
Proof.
  induction n as [|n IH]; intros l Hs; [exact Hs|].
  destruct l as [|x l]; [constructor|]. simpl. apply IH. now inversion Hs.
Qed.

Lemma sorted_firstn {A} (R : A -> A -> Prop) : forall l n, Sorted R l -> Sorted R (firstn n l).
Proof.
  induction l as [|x l IH]; intros n Hs; [destruct n; constructor|].
  destruct n as [|n]; [constructor|]. simpl.
  inversion Hs as [|? ? Hs' Hhd]; subst. constructor; [now apply IH|].
  destruct l as [|y l]; [destruct n; constructor|].
  destruct n; constructor. now inversion Hhd.
Qed.

Lemma list_keeps {X} (f : State -> X) env req :
  (forall st n, f (set_db_ops n st) = f st) -> keeps f (list_body env req).
Proof.
  intros Hf. unfold list_body. apply keeps_bind.
  - apply keeps_pool_query; [exact Hf|]. intros st. unfold select_page.
    destruct (_ <? 0); [reflexivity|]. destruct (_ <? 0); reflexivity.
  - intros [e|rows]; [apply keeps_ret|].
    apply keeps_bind; [|intros; apply keeps_ret].
    apply keeps_pool_query; [exact Hf | intros st; reflexivity].
Qed.

Lemma list_handler_snd env req st : snd (list_handler env req st) = snd (list_body env req st).
Proof.
  unfold list_handler. destruct (list_body env req st) as [[[e|r]|e|] st']; reflexivity.
Qed.

(** The handler's answer when both queries get through. *)
Lemma list_handler_eq env req st :
  let page := default 1 (list_page req) in
  let limit := default 20 (list_limit req) in
  0 <= limit -> 0 <= (page - 1) * limit ->
  db_fault env (db_ops st) = false -> db_fault env (S (db_ops st)) = false ->
  list_handler env req st
  = (Some (UrlsPage
             (map (fun url => (url, base_url env ++ "/" ++ short_code url))
                  (firstn (Z.to_nat limit)
                     (skipn (Z.to_nat ((page - 1) * limit)) (listing (list_userId req) st))))
             (Z.of_nat (length (listing (list_userId req) st))) page
             (total_pages (Z.of_nat (length (listing (list_userId req) st))) limit)),
     set_db_ops (S (S (db_ops st))) st).
Proof.
  intros page limit Hl Ho Hf0 Hf1.
  unfold list_handler, list_body, bind, pool_query, select_page, count_owned, listing.
  fold page limit. rewrite Hf0.
  destruct (Z.ltb_spec limit 0); [lia|].
  destruct (Z.ltb_spec ((page - 1) * limit) 0); [lia|].
  cbn [db_ops set_db_ops]. rewrite Hf1. unfold ret. cbn [urls set_db_ops].
  rewrite <- (Permutation_length (order_by_desc_perm created_at _)).
  reflexivity.
Qed.

(** X1. Whatever [GET /api/urls] answers, it writes nothing: tables,
    cache, click queue and clock are as before. When it answers a page,
    every row shown is a stored row of the requesting user, paired with
    the base URL followed by its short code; the rows come newest first;
    there are no more of them than [limit]; and [total] counts all rows of
    that user. *)
Theorem listing_shows_own_rows_newest_first env req st :
  let st' := snd (list_handler env req st) in
  (store st' = store st /\ cache st' = cache st /\ immediate st' = immediate st /\
   now st' = now st) /\
  forall shown total page tp,
    fst (list_handler env req st) = Some (UrlsPage shown total page tp) ->
    Forall (fun v => In (fst v) (urls st) /\ user_id (fst v) = list_userId req /\
                     snd v = base_url env ++ "/" ++ short_code (fst v)) shown /\
    sorted_desc created_at (map fst shown) /\
    Z.of_nat (length shown) <= default 20 (list_limit req) /\
    total = Z.of_nat (length (List.filter (owned_by (list_userId req)) (urls st))) /\
    page = default 1 (list_page req).
Proof.
  split.
  - rewrite list_handler_snd.
    repeat split; [apply (list_keeps store) | apply (list_keeps cache)
                  | apply (list_keeps immediate) | apply (list_keeps now)]; reflexivity.
  - intros shown total page tp.
    unfold list_handler, list_body, bind, pool_query, select_page, count_owned.
    set (limit := default 20 (list_limit req)).
    set (pg := default 1 (list_page req)).
    set (own := List.filter (owned_by (list_userId req)) (urls st)).
    destruct (db_fault env (db_ops st)); [discriminate|].
    destruct (Z.ltb_spec limit 0) as [|Hl]; [discriminate|].
    destruct (Z.ltb_spec ((pg - 1) * limit) 0) as [|Ho]; [discriminate|].
    cbn [db_ops set_db_ops].
    destruct (db_fault env (S (db_ops st))); [discriminate|].
    unfold ret. cbn [fst urls set_db_ops]. fold own.
    intros [= <- <- <- _].
    set (rows := firstn (Z.to_nat limit)
                   (skipn (Z.to_nat ((pg - 1) * limit)) (order_by_desc created_at own))).
    assert (forall r, In r rows -> In r own) as Hin.
    { intros r Hr. apply (Permutation_in r (Permutation_sym (order_by_desc_perm created_at own))).
      eapply in_skipn, in_firstn, Hr. }
    repeat split.
    + apply List.Forall_forall. intros v Hv. apply in_map_iff in Hv as (r & <- & Hr).
      apply Hin, filter_In in Hr as [Hr Ho']. apply Z.eqb_eq in Ho'. simpl. auto.
    + rewrite List.map_map. simpl. rewrite List.map_id.
      apply sorted_firstn, sorted_skipn, order_by_desc_sorted.
    + rewrite length_map. unfold rows. rewrite length_firstn. lia.
Qed.




(** X3. Paging that the database refuses: with a positive [limit], a page
    number below 1 makes a negative OFFSET, the statement is refused, the
    count is never asked for and the answer is 500; so is a negative
    [limit]. A [limit] of 0 is answered with an empty page and no finite
    [totalPages]. *)
Theorem listing_refuses_bad_paging env uid page limit st :
  db_fault env (db_ops st) = false ->
  ((0 < limit /\ page < 1) \/ limit < 0 ->
     list_handler env (page_request uid limit page) st
     = (Some ListError, set_db_ops (S (db_ops st)) st)) /\
  (limit = 0 -> db_fault env (S (db_ops st)) = false ->
     fst (list_handler env (page_request uid limit page) st)
     = Some (UrlsPage [] (Z.of_nat (length (listing uid st))) page None)).
Proof.
  intros Hdb. split.
  - intros Hbad.
    unfold list_handler, list_body, bind, pool_query, select_page. simpl.
    rewrite Hdb.
    destruct (Z.ltb_spec limit 0); [reflexivity|].
    destruct (Z.ltb_spec ((page - 1) * limit) 0); [reflexivity | nia].
  - intros -> Hdb1. rewrite list_handler_eq; simpl; try assumption; try lia.
    reflexivity.
Qed.

Lemma listing_refuses_bad_paging_witness :
  list_handler quiet (page_request 7 2 0) four_rows
  = (Some ListError, set_db_ops 1 four_rows).
Proof.
  refine (proj1 (listing_refuses_bad_paging quiet 7 0 2 four_rows eq_refl) _).
  left. lia.
Defined.

Lemma listing_shows_own_rows_newest_first_witness :
  store (snd (list_handler quiet (page_request 7 2 1) four_rows)) = store four_rows /\
  sorted_desc created_at [row_at 30 7 "b"; row_at 20 7 "d"].
Proof.
  destruct (listing_shows_own_rows_newest_first quiet (page_request 7 2 1) four_rows)
    as [(Hs & _) H].
  split; [exact Hs|].
  exact (proj1 (proj2 (H [(row_at 30 7 "b", "https://linksnap.io/b");
                          (row_at 20 7 "d", "https://linksnap.io/d")]
                         3 1 (Some 2) eq_refl))).
Defined.

(** ** Statistics of a link *)

Lemma analytics_keeps {X} (f : State -> X) env req :
  (forall st n, f (set_db_ops n st) = f st) -> keeps f (analytics_body env req).
Proof.
  intros Hf. unfold analytics_body. apply keeps_bind.
  - apply keeps_pool_query; [exact Hf | intros st; reflexivity].
  - intros [|id ids]; [apply keeps_ret|].
    apply keeps_bind; [apply keeps_pool_query; [exact Hf | intros st; reflexivity]|].
    intros daily. apply keeps_bind; [|intros; apply keeps_ret].
    apply keeps_pool_query; [exact Hf | intros st; reflexivity].
Qed.

Lemma answer_or_snd {R} (err : R) body st : snd (answer_or err body st) = snd (body st).
Proof. unfold answer_or. destruct (body st) as [[r|e|] st']; reflexivity. Qed.









Lemma select_owned_unique st r :
  codes_unique st -> In r (urls st) ->
  List.filter (fun x => has_code (short_code r) x && (user_id x =? user_id r)) (urls st)
  = [r].
Proof.
  intros Hu Hin. rewrite filter_andb, (filter_unique_code _ _ Hu Hin).
  simpl. now rewrite Z.eqb_refl.
Qed.

Lemma select_owned_none c uid l :
  (forall r, In r l -> short_code r = c -> user_id r <> uid) ->
  List.filter (fun x => has_code c x && (user_id x =? uid)) l = [].
Proof.
  intros H. induction l as [|a l IH]; [reflexivity|]. simpl.
  destruct (has_code c a) eqn:E; simpl.
  - apply has_code_true in E.
    destruct (Z.eqb_spec (user_id a) uid) as [Heq|_].
    + destruct (H a (or_introl eq_refl) E Heq).
    + apply IH. intros r Hr. apply H. now right.
  - apply IH. intros r Hr. apply H. now right.
Qed.

(** The handler's answer for the owner of a link when the three queries
    get through. *)
Lemma analytics_handler_eq env st r :
  codes_unique st -> In r (urls st) ->
  db_fault env (db_ops st) = false -> db_fault env (S (db_ops st)) = false ->
  db_fault env (S (S (db_ops st))) = false ->
  let evs := events_of (row_id r) st in
  analytics_handler env (mkAnalyticsReq (short_code r) (user_id r)) st
  = (Some (AnalyticsOk
             (firstn 30 (map (fun d => (d, clicks_on d evs))
                             (order_by_desc (fun d => d) (dates_of evs))))
             (Z.of_nat (length evs)) (Z.of_nat (length (dates_of evs)))),
     set_db_ops (S (S (S (db_ops st)))) st).
Proof.
  intros Hu Hin H0 H1 H2 evs.
  unfold analytics_handler, answer_or, analytics_body, bind, pool_query, select_owned_id.
  cbn [an_shortCode an_userId]. rewrite H0. cbn [urls set_db_ops].
  rewrite (select_owned_unique st r Hu Hin). cbn [map db_ops set_db_ops].
  rewrite H1. unfold select_daily_clicks, select_click_stats. cbn [db_ops set_db_ops].
  rewrite H2. reflexivity.
Qed.

Lemma click_task_full env t st :
  db_fault env (db_ops st) = false -> db_fault env (S (db_ops st)) = false ->
  at_ceiling (task_url_id t) st = false -> known_id (task_url_id t) st = true ->
  snd (click_task env t st)
  = set_analytics_id_seq (analytics_id_seq st + 1)
      (set_analytics (analytics st ++ [click_row t st])
         (set_db_ops (S (S (db_ops st)))
            (set_urls (map (bump (task_url_id t)) (urls st)) st))).
Proof.
  intros H0 H1 Hc Hk. rewrite click_task_eq. cbn [snd]. rewrite H0, H1, Hc. simpl.
  change (known_id (task_url_id t) (set_db_ops (S (S (db_ops st)))
            (set_urls (map (bump (task_url_id t)) (urls st)) st)))
    with (existsb (fun r => row_id r =? task_url_id t)
            (map (bump (task_url_id t)) (urls st))).
  rewrite known_id_bump, Hk. reflexivity.
Qed.

Lemma known_id_In r st : In r (urls st) -> known_id (row_id r) st = true.
Proof.
  intros Hin. unfold known_id. apply existsb_exists. exists r.
  split; [exact Hin | apply Z.eqb_refl].
Qed.

Lemma events_of_app id st evs s' :
  analytics s' = (analytics st ++ evs)%list ->
  events_of id s' = (events_of id st ++ List.filter (fun e => url_id e =? id) evs)%list.
Proof. intros H. unfold events_of. rewrite H. apply List.filter_app. Qed.

Lemma redirect_keeps {X} (f : State -> X) env c ctx :
  (forall st n, f (set_db_ops n st) = f st) ->
  (forall st n, f (set_cache_ops n st) = f st) ->
  (forall st m, f (set_cache m st) = f st) ->
  (forall st q, f (set_immediate q st) = f st) ->
  keeps f (redirect_body env c ctx).
Proof.
  intros H1 H2 H3 H4. unfold redirect_body.
  apply keeps_bind; [now apply keeps_getCachedUrl|].
  assert (forall u, keeps f (check_and_redirect u ctx)) as Hc.
  { intros u st. rewrite check_and_redirect_eq.
    destruct (is_expired u (now st)); [reflexivity | apply H4]. }
  intros [u|]; [apply Hc|].
  apply keeps_bind; [apply keeps_pool_query; [exact H1 | intros st; reflexivity]|].
  intros [|u rows]; [apply keeps_ret|].
  apply keeps_bind; [now apply keeps_setCachedUrl | intros _; apply Hc].
Qed.

(** What an allocation does to the tables. *)
Lemma shorten_tables env fuel req st :
  let st' := snd (shorten_handler env fuel req st) in
  analytics st' = analytics st /\
  ((urls st' = urls st /\ urls_id_seq st' = urls_id_seq st) \/
   (exists row : UrlRow,
      urls st' = (urls st ++ [row])%list /\ row_id row = urls_id_seq st /\
      click_count row = 0 /\ urls_id_seq st' = urls_id_seq st + 1)).
Proof.
  set (f := fun s : State => (urls s, analytics s, urls_id_seq s)).
  assert (forall c st1, f st1 = f st ->
            let st' := snd (store_and_reply env req c st1) in
            analytics st' = analytics st /\
            ((urls st' = urls st /\ urls_id_seq st' = urls_id_seq st) \/
             (exists row : UrlRow,
                urls st' = (urls st ++ [row])%list /\ row_id row = urls_id_seq st /\
                click_count row = 0 /\ urls_id_seq st' = urls_id_seq st + 1))) as Hs.
  { intros c st1 Hf. injection Hf as Hu Ha Hq.
    rewrite store_and_reply_unfold. unfold pool_query.
    destruct (db_fault env (db_ops st1)); [simpl; auto|].
    unfold insert_url. cbn [urls set_db_ops].
    destruct (varchar 20 c) as [code'|]; [|simpl; auto].
    destruct (varchar_opt 50 (customAlias req)) as [alias'|]; [|simpl; auto].
    destruct (existsb _ _); [simpl; auto|].
    cbn [snd]. unfold after_setex.
    destruct (cache_fault env _); simpl; rewrite Hu, Ha, Hq;
      (split; [reflexivity|]); right; eexists; repeat split. }
  assert (forall b : M Response, snd (respond b st) = snd (b st)) as Hr.
  { intros b. unfold respond. destruct (b st) as [[a|e|] st']; reflexivity. }
  unfold shorten_handler. rewrite Hr. unfold shorten_body.
  destruct (negb _); [simpl; auto|].
  destruct (truthy_alias _) as [alias|].
  - unfold bind, pool_query. destruct (db_fault env (db_ops st)); [simpl; auto|].
    simpl. destruct (0 <? length _)%nat; [simpl; auto|]. now apply Hs.
  - unfold bind. pose proof (keeps_unique_code_loop f env fuel) as Hk.
    specialize (Hk ltac:(reflexivity) ltac:(reflexivity) st).
    destruct (unique_code_loop env fuel st) as [[c|e|] st1]; cbn [snd] in *.
    + now apply Hs.
    + injection Hk as -> -> ->. auto.
    + injection Hk as -> -> ->. auto.
Qed.

Lemma events_of_same id st st' : analytics st' = analytics st -> events_of id st' = events_of id st.
Proof. unfold events_of. now intros ->. Qed.

Lemma tallied_same st st' :
  urls st' = urls st -> analytics st' = analytics st -> urls_id_seq st' = urls_id_seq st ->
  tallied st -> tallied st'.
Proof.
  intros Hu Ha Hq (H1 & H2 & H3). unfold tallied.
  rewrite Hu, Ha, Hq. repeat split; [exact H1 | exact H2|].
  intros r Hr. rewrite (events_of_same _ st st' Ha). now apply H3.
Qed.

Lemma tallied_exec env op st : tallied st -> tallied (exec env op st).
Proof.
  intros Ht. destruct op as [fuel req|c ctx|]; simpl.
  - destruct (shorten_tables env fuel req st) as (Ha & [[Hu Hq] | (row & Hu & Hid & Hc & Hq)]).
    + revert Ht. now apply tallied_same.
    + destruct Ht as (H1 & H2 & H3). unfold tallied. rewrite Hu, Ha, Hq.
      repeat split.
      * intros r Hr. apply in_app_iff in Hr as [Hr|[<-|[]]]; [specialize (H1 r Hr)|]; lia.
      * intros e He. specialize (H2 e He). lia.
      * intros r Hr. rewrite (events_of_same _ st _ Ha).
        apply in_app_iff in Hr as [Hr|[<-|[]]]; [now apply H3|].
        rewrite Hid, Hc. unfold events_of.
        assert (List.filter (fun e => url_id e =? urls_id_seq st) (analytics st) = []) as ->.
        { clear -H2. induction (analytics st) as [|e l IH]; [reflexivity|]. simpl.
          destruct (Z.eqb_spec (url_id e) (urls_id_seq st)) as [Heq|_].
          - specialize (H2 e (or_introl eq_refl)). lia.
          - apply IH. intros e' He'. apply H2. now right. }
        simpl. lia.
  - revert Ht. unfold redirect_handler.
    apply tallied_same;
      [apply (keeps_respond urls) | apply (keeps_respond analytics)
      | apply (keeps_respond urls_id_seq)];
      apply redirect_keeps; reflexivity.
  - unfold run_immediate. destruct (immediate st) as [|t q]; [exact Ht|].
    rewrite click_task_eq. cbn [snd].
    assert (tallied (set_immediate q st)) as Hq by (revert Ht; now apply tallied_same).
    revert Hq. generalize (set_immediate q st). clear st Ht. intros st Ht.
    destruct (db_fault env (db_ops st) || at_ceiling (task_url_id t) st);
      [revert Ht; now apply tallied_same|].
    destruct Ht as (H1 & H2 & H3).
    assert (forall r, In r (urls st) ->
              row_id (bump (task_url_id t) r) = row_id r) as Hid
      by (intros r _; apply (proj1 (same_link_bump (task_url_id t) r))).
    destruct (db_fault env (S (db_ops st)) || negb _) eqn:E.
    + repeat split; simpl.
      * intros r Hr. apply in_map_iff in Hr as (r0 & <- & Hr0).
        rewrite (Hid r0 Hr0). now apply H1.
      * exact H2.
      * intros r Hr. apply in_map_iff in Hr as (r0 & <- & Hr0).
        rewrite (Hid r0 Hr0). specialize (H3 r0 Hr0).
        change (events_of (row_id r0) _) with (events_of (row_id r0) st).
        destruct (click_count_bump (task_url_id t) r0) as [-> | ->]; lia.
    + apply orb_false_iff in E as [_ Ek]. apply negb_false_iff in Ek.
      apply existsb_exists in Ek as (rk & Hrk & Hidk). apply Z.eqb_eq in Hidk.
      simpl in Hrk. apply in_map_iff in Hrk as (r1 & <- & Hr1). rewrite (Hid r1 Hr1) in Hidk.
      repeat split; simpl.
      * intros r Hr. apply in_map_iff in Hr as (r0 & <- & Hr0).
        rewrite (Hid r0 Hr0). now apply H1.
      * intros e He. apply in_app_iff in He as [He|[<-|[]]]; [now apply H2|].
        simpl. rewrite <- Hidk. now apply H1.
      * intros r Hr. apply in_map_iff in Hr as (r0 & <- & Hr0).
        rewrite (Hid r0 Hr0). specialize (H3 r0 Hr0).
        unfold events_of in *. simpl. rewrite List.filter_app, length_app. simpl.
        unfold bump.
        destruct (Z.eqb_spec (row_id r0) (task_url_id t)) as [Heq|Hne].
        -- rewrite <- Heq, Z.eqb_refl. simpl. lia.
        -- destruct (Z.eqb_spec (task_url_id t) (row_id r0)); [congruence|]. simpl. lia.
Qed.

(** X4. [GET /api/analytics/:shortCode] writes nothing, whatever it
    answers. When no stored link has both the code and the requesting
    user, the first query being answered, the answer is 404 after that one
    query: a link of another user is answered exactly as a code that does
    not exist. *)
Theorem analytics_only_for_the_owner env req st :
  let st' := snd (analytics_handler env req st) in
  (store st' = store st /\ cache st' = cache st /\ immediate st' = immediate st /\
   now st' = now st) /\
  (db_fault env (db_ops st) = false ->
   (forall r, In r (urls st) -> short_code r = an_shortCode req ->
              user_id r <> an_userId req) ->
   analytics_handler env req st
   = (Some AnalyticsNotFound, set_db_ops (S (db_ops st)) st)).
Proof.
  split.
  - unfold analytics_handler. rewrite answer_or_snd.
    repeat split; [apply (analytics_keeps store) | apply (analytics_keeps cache)
                  | apply (analytics_keeps immediate) | apply (analytics_keeps now)];
      reflexivity.
  - intros Hdb Hnone.
    unfold analytics_handler, answer_or, analytics_body, bind, pool_query, select_owned_id.
    rewrite Hdb. cbn [urls set_db_ops].
    now rewrite (select_owned_none _ _ _ Hnone).
Qed.

Lemma analytics_only_for_the_owner_witness :
  analytics_handler quiet (mkAnalyticsReq "AAAAAAA" 8) clicked_world
  = (Some AnalyticsNotFound, set_db_ops 1 clicked_world).
Proof.
  refine (proj2 (analytics_only_for_the_owner quiet (mkAnalyticsReq "AAAAAAA" 8)
                   clicked_world) eq_refl _).
  intros r [<-|[]] _. discriminate.
Defined.



(** X6. A click task whose two queries go through and the owner's
    statistics: for a stored link with unique code, not at the counter's
    ceiling, and a working database, the [totalClicks] the handler reports
    after the task is one more than before it, and the link's
    [click_count] is one more as well. *)
Theorem recorded_click_shows_in_analytics env ctx st r :
  (forall k, db_fault env k = false) ->
  codes_unique st -> In r (urls st) -> at_ceiling (row_id r) st = false ->
  let req := mkAnalyticsReq (short_code r) (user_id r) in
  let st' := snd (click_task env (mkClickTask (row_id r) ctx) st) in
  let total := Z.of_nat (length (events_of (row_id r) st)) in
  exists d a d' a',
    fst (analytics_handler env req st) = Some (AnalyticsOk d total a) /\
    fst (analytics_handler env req st') = Some (AnalyticsOk d' (total + 1) a') /\
    In (bump (row_id r) r) (urls st') /\
    click_count (bump (row_id r) r) = click_count r + 1.
Proof.
  intros Hdb Hu Hin Hc req st' total.
  assert (st' = set_analytics_id_seq (analytics_id_seq st + 1)
                  (set_analytics (analytics st ++ [click_row (mkClickTask (row_id r) ctx) st])
                     (set_db_ops (S (S (db_ops st)))
                        (set_urls (map (bump (row_id r)) (urls st)) st)))) as Hst'.
  { unfold st'. apply click_task_full; try apply Hdb; [exact Hc|].
    now apply known_id_In. }
  assert (In (bump (row_id r) r) (urls st')) as Hin'
    by (rewrite Hst'; simpl; now apply in_map).
  assert (codes_unique st') as Hu'
    by (rewrite Hst'; unfold codes_unique; simpl; now rewrite map_short_code_bump).
  destruct (same_link_bump (row_id r) r) as (Hid & _ & Hcode & _).
  assert (user_id (bump (row_id r) r) = user_id r) as Huid
    by (unfold bump; destruct (row_id r =? row_id r); reflexivity).
  pose proof (analytics_handler_eq env st r Hu Hin (Hdb _) (Hdb _) (Hdb _)) as H1.
  pose proof (analytics_handler_eq env st' _ Hu' Hin' (Hdb _) (Hdb _) (Hdb _)) as H2.
  rewrite Hid, Hcode, Huid in H2. simpl in H1, H2.
  do 4 eexists. split; [unfold req; rewrite H1; reflexivity|].
  split; [|split; [exact Hin'|]].
  - unfold req. rewrite H2. cbn [fst]. do 2 f_equal.
    rewrite (events_of_app (row_id r) st
               [click_row (mkClickTask (row_id r) ctx) st] st')
      by (rewrite Hst'; reflexivity).
    rewrite length_app. simpl. rewrite Z.eqb_refl. simpl. unfold total. lia.
  - unfold bump. rewrite Z.eqb_refl. reflexivity.
Qed.

Lemma recorded_click_shows_in_analytics_witness :
  exists d a d' a',
    fst (analytics_handler quiet (mkAnalyticsReq "AAAAAAA" 7) clicked_world)
    = Some (AnalyticsOk d 3 a) /\
    fst (analytics_handler quiet (mkAnalyticsReq "AAAAAAA" 7)
           (snd (click_task quiet (mkClickTask 1 a_visitor) clicked_world)))
    = Some (AnalyticsOk d' 4 a').
Proof.
  destruct (recorded_click_shows_in_analytics quiet a_visitor clicked_world row_AAAAAAA)
    as (d & a & d' & a' & H1 & H2 & _).
  - reflexivity.
  - apply NoDup_singleton.
  - now left.
  - reflexivity.
  - exists d, a, d', a'. split; [exact H1 | exact H2].
Defined.

(** X7. In every world reached from a fresh server by core operations and
    the passing of time, whatever fails on the way, no link has more
    events stored than its [click_count] says: the counter may run ahead
    of the events (a lost INSERT), never behind. *)
Theorem events_never_exceed_click_count st :
  reachable empty_world st ->
  forall r, In r (urls st) ->
    Z.of_nat (length (events_of (row_id r) st)) <= click_count r.
Proof.
  intros Hr.
  assert (tallied st) as (_ & _ & H); [|exact H].
  induction Hr as [|st1 st2 Hr IH Hs].
  - repeat split; intros ? [].
  - destruct Hs as [env op s|t s Ht].
    + now apply tallied_exec.
    + revert IH. now apply tallied_same.
Qed.

Lemma events_never_exceed_click_count_witness :
  let st := exec first_query_lost RecordClick
              (exec quiet (Resolve "promo" a_visitor)
                 (exec quiet (Allocate 0 promo_request) empty_world)) in
  Forall (fun r => Z.of_nat (length (events_of (row_id r) st)) <= click_count r) (urls st).
Proof.
  intros st. apply List.Forall_forall.
  apply (events_never_exceed_click_count st).
  eapply reach_more; [eapply reach_more; [eapply reach_more; [apply reach_here|]|]|];
    apply step_op.
Defined.

(** ** Allocation, cache and clicks together *)







(** X10. [GET /:shortCode] queues a click exactly when it redirects: a
    301 adds one task, for this request, at the end of the queue; any
    other answer leaves the queue as it was. In a well-formed world the
    301 goes to the [original_url] of a stored record and the task carries
    that record's id. *)
Theorem click_is_queued_only_on_redirect env c ctx st :
  let resp := fst (redirect_handler env c ctx st) in
  let st' := snd (redirect_handler env c ctx st) in
  (match resp with
   | Some (Redirect url) =>
       exists id, immediate st' = (immediate st ++ [mkClickTask id ctx])%list /\
         (well_formed st ->
          exists r, In r (urls st) /\ original_url r = url /\ row_id r = id)
   | _ => immediate st' = immediate st
   end).
Proof.
  assert (forall u s, immediate s = immediate st ->
            (well_formed st -> exists r, In r (urls st) /\ same_link r u) ->
            match fst (respond (check_and_redirect u ctx) s) with
            | Some (Redirect url) =>
                exists id,
                  immediate (snd (respond (check_and_redirect u ctx) s))
                  = (immediate st ++ [mkClickTask id ctx])%list /\
                  (well_formed st ->
                   exists r, In r (urls st) /\ original_url r = url /\ row_id r = id)
            | _ => immediate (snd (respond (check_and_redirect u ctx) s)) = immediate st
            end) as Hc.
  { intros u s Hs Hu. unfold respond. rewrite check_and_redirect_eq.
    destruct (is_expired u (now s)); simpl; [exact Hs|].
    exists (row_id u). rewrite Hs. split; [reflexivity|].
    intros Hwf. destruct (Hu Hwf) as (r & Hin & Hid & Hurl & _). eauto. }
  cbv zeta. unfold redirect_handler.
  destruct (hit_or_miss env c st) as [(Hf & u & Hu) | Hm].
  - assert (respond (redirect_body env c ctx) st
            = respond (check_and_redirect u ctx) (set_cache_ops (S (cache_ops st)) st)) as ->
      by (unfold respond; now rewrite (redirect_hit env c ctx st u Hf Hu)).
    apply Hc; [reflexivity|]. intros (_ & _ & Hcoh).
    apply cached_live_Some in Hu as (e & Hk & _).
    destruct (Hcoh _ _ _ Hk) as (r & Hin & Hl & _). eauto.
  - destruct (db_fault env (db_ops st)) eqn:Hdb.
    + unfold respond. rewrite redirect_miss_fault by assumption. reflexivity.
    + destruct (List.filter (fun r => has_code c r && is_active r) (urls st))
        as [|u rows] eqn:Hfl.
      * unfold respond. rewrite redirect_miss, Hfl by assumption. reflexivity.
      * assert (respond (redirect_body env c ctx) st
                = respond (check_and_redirect u ctx) (after_setex env c u (after_miss st)))
          as -> by (unfold respond; now rewrite redirect_miss, Hfl by assumption).
        apply Hc; [apply (after_setex_frame env c u (after_miss st))|]. intros _. exists u.
        split; [|apply same_link_refl].
        assert (In u (List.filter (fun r => has_code c r && is_active r) (urls st))) as Hin
          by (rewrite Hfl; now left).
        now apply filter_In in Hin.
Qed.

Lemma click_is_queued_only_on_redirect_witness :
  immediate (snd (redirect_handler quiet "sale" a_visitor expired_link)) = [] /\
  immediate (snd (redirect_handler quiet "AAAAAAA" a_visitor one_link))
  = [mkClickTask 1 a_visitor].
Proof.
  split.
  - exact (click_is_queued_only_on_redirect quiet "sale" a_visitor expired_link).
  - destruct (click_is_queued_only_on_redirect quiet "AAAAAAA" a_visitor one_link)
      as (id & H & _).
    rewrite H. vm_compute in H. injection H as <-. reflexivity.
Defined.



(** X12. One redirect, one click: from an empty queue in a well-formed
    world, with a working database and the record below the counter's
    ceiling, resolving the code of an active record that is not expired
    and then letting the event loop run the queued task leaves the queue
    empty, every record with that id with one click more and all others as
    they were, and one more event stored, for that id. *)
Theorem one_redirect_counts_one_click env ctx st r :
  well_formed st -> In r (urls st) -> is_active r = true ->
  is_expired r (now st) = false ->
  immediate st = [] ->
  (forall k, db_fault env k = false) ->
  at_ceiling (row_id r) st = false ->
  let st1 := snd (redirect_handler env (short_code r) ctx st) in
  let st2 := run_immediate env st1 in
  fst (redirect_handler env (short_code r) ctx st) = Some (Redirect (original_url r)) /\
  immediate st2 = [] /\
  urls st2 = map (bump (row_id r)) (urls st) /\
  analytics st2
  = (analytics st ++ [mkClickRow (analytics_id_seq st) (row_id r) (now st) (req_ip ctx)
                                 (req_user_agent ctx) (req_referer ctx)])%list.
Proof.
  intros Hwf Hin Hact Hexp Hq Hdb Hceil st1 st2.
  destruct (redirect_active env ctx st r Hwf Hin Hact (Hdb _))
    as (u & s & Heq & Hl & Hs & Hi & Hn & _).
  destruct Hl as (Hid & Hurl & _ & Hex).
  assert (is_expired u (now s) = false) as Hexp'
    by (unfold is_expired in *; now rewrite <- Hex, Hn).
  assert (redirect_handler env (short_code r) ctx st
          = (Some (Redirect (original_url r)),
             set_immediate [mkClickTask (row_id r) ctx] s)) as Hh.
  { unfold redirect_handler, respond. rewrite Heq, check_and_redirect_eq, Hexp'.
    rewrite Hi, Hq, <- Hurl, <- Hid. reflexivity. }
  injection Hs as Hurls Han.
  unfold st2, st1. rewrite Hh. cbn [fst snd]. split; [reflexivity|].
  unfold run_immediate. cbn [immediate set_immediate].
  rewrite click_task_full; cbn [task_url_id]; try apply Hdb.
  - cbn [immediate urls analytics set_analytics_id_seq set_analytics set_db_ops
         set_urls set_immediate].
    rewrite Hurls, Han. split; [reflexivity|]. split; [reflexivity|].
    unfold click_row. cbn. rewrite Hn.
    assert (analytics_id_seq s = analytics_id_seq st) as ->; [|reflexivity].
    clear -Heq. (* the sequence of analytics ids is not touched by a resolve *)
    pose proof (redirect_keeps analytics_id_seq env (short_code r) ctx
                  ltac:(reflexivity) ltac:(reflexivity) ltac:(reflexivity)
                  ltac:(reflexivity) st) as Hk.
    rewrite Heq, check_and_redirect_eq in Hk.
    destruct (is_expired u (now s)); exact Hk.
  - unfold at_ceiling in *. cbn [urls set_immediate]. now rewrite Hurls.
  - unfold known_id. cbn [urls set_immediate]. rewrite Hurls. now apply known_id_In.
Qed.

Lemma one_redirect_counts_one_click_witness :
  let st2 := run_immediate quiet
               (snd (redirect_handler quiet "AAAAAAA" a_visitor one_link)) in
  immediate st2 = [] /\ urls st2 = [bump 1 row_AAAAAAA] /\
  analytics st2 = [mkClickRow 1 1 1000 "203.0.113.9" (Some "curl/8.0") None].
Proof.
  intros st2.
  refine (proj2 (one_redirect_counts_one_click quiet a_visitor one_link row_AAAAAAA
                   _ _ eq_refl eq_refl eq_refl (fun _ => eq_refl) eq_refl)).
  - repeat split.
    + apply NoDup_singleton.
    + intros r [<-|[]]. simpl. lia.
    + intros k r e Hk. vm_compute in Hk. discriminate.
  - now left.
Defined.

(** ** Tokens, registration and login *)

Lemma split_space_nonempty s : split_space s <> [].
Proof.
  destruct s as [|c s]; simpl; [discriminate|].
  destruct (Ascii.eqb c " "); [discriminate|].
  destruct (split_space s); discriminate.
Qed.

Lemma split_space_word w rest :
  spaceless w = true ->
  split_space (w ++ String " "%char rest) = w :: split_space rest.
Proof.
  induction w as [|c w IH]; intros Hw; simpl in *; [reflexivity|].
  apply andb_true_iff in Hw as [Hc Hw]. apply negb_true_iff in Hc.
  rewrite Hc, (IH Hw). reflexivity.
Qed.

Lemma split_space_last w : spaceless w = true -> split_space w = [w].
Proof.
  induction w as [|c w IH]; intros Hw; simpl in *; [reflexivity|].
  apply andb_true_iff in Hw as [Hc Hw]. apply negb_true_iff in Hc.
  rewrite Hc, (IH Hw). reflexivity.
Qed.

(** X13. The Redis retry strategy gives up exactly when the error is a
    refused connection; otherwise it asks for a new attempt after 100 ms
    times the number of the attempt, and never more than 3000 ms: the
    wait does not shrink as the attempts go on and stays at 3000 ms from
    the 30th. *)
Theorem retry_wait_is_capped o :
  match retry_strategy o with
  | StopRetrying _ => retry_error_code o = Some "ECONNREFUSED"
  | RetryIn ms =>
      retry_error_code o <> Some "ECONNREFUSED" /\ ms <= 3000 /\
      (retry_attempt o <= 30 -> ms = retry_attempt o * 100) /\
      (30 <= retry_attempt o -> ms = 3000) /\
      forall o' ms', retry_strategy o' = RetryIn ms' ->
                     retry_attempt o <= retry_attempt o' -> ms <= ms'
  end.
Proof.
  assert (forall o ms, retry_strategy o = RetryIn ms ->
            ms = Z.min (retry_attempt o * 100) 3000) as Hms.
  { intros o0 ms. unfold retry_strategy.
    destruct (retry_error_code o0) as [code|]; [destruct (String.eqb code _)|];
      congruence. }
  destruct (retry_strategy o) as [msg|ms] eqn:E.
  - unfold retry_strategy in E. destruct (retry_error_code o) as [code|]; [|discriminate].
    destruct (String.eqb_spec code "ECONNREFUSED"); [congruence | discriminate].
  - pose proof (Hms o ms E) as ->. split.
    + unfold retry_strategy in E. intros Hc. rewrite Hc in E. discriminate.
    + repeat split; try lia. intros o' ms' E' Hle. rewrite (Hms o' ms' E'). lia.
Qed.

Lemma append_empty (a : string) : a ++ "" = a.
Proof.
  induction a as [|c a IH]; [reflexivity|].
  change (String c (a ++ "") = String c a). now rewrite IH.
Qed.

Lemma append_nonempty a c b : String.eqb (a ++ String c b) "" = false.
Proof. destruct a; reflexivity. Qed.

(** X14. [authenticateToken] answers 401, without asking for the token to
    be verified, when there is no Authorization header, when the header
    has no space in it, and when nothing stands between its first space
    and the next (or the end). *)
Theorem no_token_is_unauthorized aenv w rest :
  spaceless w = true ->
  authenticateToken aenv None = Status401 /\
  authenticateToken aenv (Some w) = Status401 /\
  authenticateToken aenv (Some (w ++ " ")) = Status401 /\
  authenticateToken aenv (Some (w ++ "  " ++ rest)) = Status401.
Proof.
  intros Hw. unfold authenticateToken, header_token.
  split; [reflexivity|]. split; [|split].
  - destruct (String.eqb w ""); [reflexivity|].
    now rewrite (split_space_last w Hw).
  - rewrite append_nonempty, (split_space_word w "" Hw). reflexivity.
  - change (w ++ "  " ++ rest) with (w ++ String " "%char (String " "%char rest)).
    rewrite append_nonempty, (split_space_word w _ Hw). reflexivity.
Qed.

Lemma no_token_is_unauthorized_witness :
  authenticateToken plain_auth (Some "Bearer") = Status401 /\
  authenticateToken plain_auth (Some "Bearer  t7") = Status401.
Proof.
  destruct (no_token_is_unauthorized plain_auth "Bearer" "t7" eq_refl)
    as (_ & H1 & _ & H2).
  split; [exact H1 | exact H2].
Defined.

(** X15. For a header made of a first word, one space and a non-empty
    second word, alone or followed by a space and anything, the outcome is
    decided by the verification of the second word only: 403 when it
    fails, otherwise the request goes on with the payload as its user. The
    first word is never looked at and what follows the second is ignored. *)
Theorem second_word_is_the_token aenv scheme token rest :
  spaceless scheme = true -> spaceless token = true -> token <> "" ->
  rest = "" \/ (exists r, rest = String " "%char r) ->
  authenticateToken aenv (Some (scheme ++ " " ++ token ++ rest))
  = match jwt_verify aenv token with
    | None => Status403
    | Some user => Next user
    end.
Proof.
  intros Hs Ht Hne Hrest. unfold authenticateToken, header_token.
  change (scheme ++ " " ++ token ++ rest)
    with (scheme ++ String " "%char (token ++ rest)).
  rewrite append_nonempty, (split_space_word scheme _ Hs).
  assert (exists ws, split_space (token ++ rest) = token :: ws) as (ws & ->).
  { destruct Hrest as [-> | (r & ->)].
    - exists []. rewrite append_empty. now apply split_space_last.
    - eexists. now apply split_space_word. }
  simpl. destruct (String.eqb_spec token ""); [contradiction | reflexivity].
Qed.

Lemma second_word_is_the_token_witness :
  authenticateToken plain_auth (Some "Basic t7 and more")
  = Next (mkTokenUser 7 "ann@example.com").
Proof.
  apply (second_word_is_the_token plain_auth "Basic" "t7" " and more");
    [reflexivity | reflexivity | discriminate | right; eauto].
Defined.


Lemma existsb_has_email_false e l :
  existsb (has_email e) l = false -> List.filter (has_email e) l = [].
Proof.
  intros H. induction l as [|u l IH]; simpl in *; [reflexivity|].
  apply orb_false_iff in H as [H1 H2]. rewrite H1. now apply IH.
Qed.






(** X18. Login writes nothing: users and id sequence are as before,
    whatever the answer. With the query answered, an e-mail that no
    account has and a password that does not match the hash of the first
    account with that e-mail get the same answer, 401 "Invalid
    credentials"; a request without a password for a known e-mail is
    answered 500. *)
Theorem login_reads_only env aenv c ac :
  let resp := fst (login_handler env aenv c ac) in
  let ac' := snd (login_handler env aenv c ac) in
  (users ac' = users ac /\ users_id_seq ac' = users_id_seq ac /\ acct_now ac' = acct_now ac) /\
  (db_fault env (acct_queries ac) = false ->
   (select_user (cred_email c) ac = (inr [], ac) -> resp = InvalidCredentials) /\
   (forall u rest, select_user (cred_email c) ac = (inr (u :: rest), ac) ->
      (forall p, cred_password c = Some p ->
                 bcrypt_compare aenv p (password_hash u) = false ->
                 resp = InvalidCredentials) /\
      (cred_password c = None -> resp = AuthInternalError))).
Proof.
  cbv zeta. unfold login_handler, login_body, acct_bind, acct_query.
  destruct (db_fault env (acct_queries ac)).
  - split; [repeat split | discriminate].
  - assert (forall s, select_user (cred_email c) s = (inr (List.filter
              (fun u => match cred_email c with Some e => has_email e u | None => false end)
              (users s)), s)) as Hsel.
    { intros s. unfold select_user. destruct (cred_email c); [reflexivity|].
      f_equal. f_equal. induction (users s); [reflexivity | assumption]. }
    rewrite Hsel. cbn [users].
    destruct (List.filter _ (users ac)) as [|u rest] eqn:Hf.
    + split; [repeat split|]. intros _. split; [reflexivity|].
      intros u rest. rewrite Hsel, Hf. discriminate.
    + unfold compare_password.
      assert (forall u' rest', select_user (cred_email c) ac = (inr (u' :: rest'), ac) ->
                u' = u) as Hu.
      { intros u' rest'. rewrite Hsel, Hf. congruence. }
      destruct (cred_password c) as [p|].
      * destruct (bcrypt_compare aenv p (password_hash u)) eqn:Hc; cbn.
        -- split; [repeat split|]. intros _. split.
           ++ rewrite Hsel, Hf. discriminate.
           ++ intros u' rest' Hs. rewrite (Hu u' rest' Hs).
              split; [|discriminate]. intros p' [= <-] Hc'. congruence.
        -- split; [repeat split|]. intros _. split; [reflexivity|].
           intros u' rest' Hs. split; [reflexivity | discriminate].
      * cbn. split; [repeat split|]. intros _. split.
        -- rewrite Hsel, Hf. discriminate.
        -- intros u' rest' Hs. split; [discriminate | reflexivity].
Qed.

Lemma login_reads_only_witness :
  fst (login_handler quiet plain_auth
         (mkCredentials (Some "ann@example.com") (Some "wrong")) one_account)
  = InvalidCredentials /\
  fst (login_handler quiet plain_auth
         (mkCredentials (Some "bob@example.com") (Some "wrong")) one_account)
  = InvalidCredentials.
Proof.
  split.
  - destruct (login_reads_only quiet plain_auth
                (mkCredentials (Some "ann@example.com") (Some "wrong")) one_account)
      as [_ H].
    destruct (H eq_refl) as [_ H'].
    destruct (H' ann [] eq_refl) as [H'' _].
    exact (H'' "wrong" eq_refl eq_refl).
  - destruct (login_reads_only quiet plain_auth
                (mkCredentials (Some "bob@example.com") (Some "wrong")) one_account)
      as [_ H].
    destruct (H eq_refl) as [H' _]. exact (H' eq_refl).
Defined.

(** What a 201 of registration tells. *)
Lemma register_success env aenv c ac token id email :
  fst (register_handler env aenv c ac) = Registered token id email ->
  exists e p h,
    truthy_string (cred_email c) = Some e /\ truthy_string (cred_password c) = Some p /\
    varchar 255 e = Some email /\
    varchar 255 (bcrypt_hash aenv p (acct_queries ac)) = Some h /\
    existsb (has_email email) (users ac) = false /\
    id = users_id_seq ac /\
    token = jwt_sign aenv (mkTokenUser id email) (acct_now ac) /\
    snd (register_handler env aenv c ac)
    = mkAccounts (users ac ++ [mkUserRow id email h (acct_now ac) false])
                 (id + 1) (acct_now ac) (S (acct_queries ac)).
Proof.
  destruct (register_handler env aenv c ac) as [resp ac'] eqn:E. cbn [fst snd].
  intros ->. unfold register_handler, register_body in E.
  destruct (truthy_string (cred_email c)) as [e|] eqn:He; [|discriminate].
  destruct (truthy_string (cred_password c)) as [p|] eqn:Hp; [|discriminate].
  destruct (negb (isEmail aenv e)); [discriminate|].
  destruct (String.length p <? 8)%nat; [discriminate|].
  unfold acct_bind, hash_password, acct_query in E. cbn beta iota in E.
  destruct (db_fault env (acct_queries ac)); [discriminate|].
  unfold insert_user in E. cbn [users users_id_seq acct_now acct_queries] in E.
  destruct (varchar 255 e) as [e'|] eqn:He'; [|discriminate].
  destruct (varchar 255 (bcrypt_hash aenv p (acct_queries ac))) as [h'|] eqn:Hh; [|discriminate].
  destruct (existsb (has_email e') (users ac)) eqn:Hex; [discriminate|].
  cbn in E. injection E as <- <- <- <-.
  exists e, p, h'. rewrite He', Hh. repeat split. exact Hex.
Qed.

Lemma truthy_string_Some s x : truthy_string s = Some x -> s = Some x /\ x <> "".
Proof.
  destruct s as [y|]; simpl; [|discriminate].
  destruct (String.eqb_spec y ""); [discriminate|]. intros [= <-]. auto.
Qed.

(** X19. Register, then log in: when registration answers 201 and the
    library's [compare] accepts the password against the hash that was
    stored, a login with the answered e-mail and the same password, its
    query answered, is answered 200 with the same id and e-mail and a
    token signed for them. *)
Theorem register_then_login env aenv c ac p token id email :
  cred_password c = Some p ->
  fst (register_handler env aenv c ac) = Registered token id email ->
  (forall n h, varchar 255 (bcrypt_hash aenv p n) = Some h -> bcrypt_compare aenv p h = true) ->
  let ac' := snd (register_handler env aenv c ac) in
  db_fault env (acct_queries ac') = false ->
  fst (login_handler env aenv (mkCredentials (Some email) (Some p)) ac')
  = LoggedIn (jwt_sign aenv (mkTokenUser id email) (acct_now ac')) id email.
Proof.
  intros Hp Hreg Hcmp ac' Hdb.
  destruct (register_success env aenv c ac token id email Hreg)
    as (e & p' & h & _ & Hp' & _ & Hh & Hex & _ & _ & Hac).
  apply truthy_string_Some in Hp' as [Hp' _]. rewrite Hp in Hp'. injection Hp' as <-.
  fold ac' in Hac. clearbody ac'. subst ac'.
  unfold login_handler, login_body, acct_bind, acct_query.
  cbn [acct_queries] in *. rewrite Hdb.
  unfold select_user. cbn [cred_email users].
  rewrite List.filter_app, (existsb_has_email_false _ _ Hex). cbn [List.filter app].
  unfold has_email at 1. cbn [user_email]. rewrite String.eqb_refl.
  unfold compare_password. cbn [cred_password password_hash].
  rewrite (Hcmp _ h Hh). reflexivity.
Qed.

Lemma register_then_login_witness :
  fst (login_handler quiet plain_auth ann_credentials
         (snd (register_handler quiet plain_auth ann_credentials no_account)))
  = LoggedIn "t7" 7 "ann@example.com".
Proof.
  refine (register_then_login quiet plain_auth ann_credentials no_account
            "correct horse" "t7" 7 "ann@example.com" eq_refl eq_refl _ eq_refl).
  intros n h [= <-]. reflexivity.
Defined.

(** X20. The token of a registration opens the door: when registration
    answers 201 with a token, and the library verifies what it signs for
    that user and signs for them no token that is empty or has a space in
    it, [authenticateToken] lets a request with the header "Bearer "
    followed by that token go on as the user with the answered id and
    e-mail. *)
Theorem registered_token_authenticates env aenv c ac token id email :
  fst (register_handler env aenv c ac) = Registered token id email ->
  (forall t, jwt_verify aenv (jwt_sign aenv (mkTokenUser id email) t)
             = Some (mkTokenUser id email)) ->
  (forall t, spaceless (jwt_sign aenv (mkTokenUser id email) t) = true /\
             jwt_sign aenv (mkTokenUser id email) t <> "") ->
  authenticateToken aenv (Some ("Bearer " ++ token)) = Next (mkTokenUser id email).
Proof.
  intros Hreg Hv Hs.
  destruct (register_success env aenv c ac token id email Hreg)
    as (_ & _ & _ & _ & _ & _ & _ & _ & _ & -> & _).
  destruct (Hs (acct_now ac)) as [Hsp Hne].
  unfold authenticateToken, header_token.
  change ("Bearer " ++ jwt_sign aenv (mkTokenUser id email) (acct_now ac))
    with ("Bearer" ++ String " "%char (jwt_sign aenv (mkTokenUser id email) (acct_now ac))).
  rewrite append_nonempty, (split_space_word "Bearer" _ eq_refl).
  rewrite (split_space_last _ Hsp). cbn [nth_error].
  destruct (String.eqb_spec (jwt_sign aenv (mkTokenUser id email) (acct_now ac)) "");
    [contradiction|].
  now rewrite Hv.
Qed.

Lemma registered_token_authenticates_witness :
  authenticateToken plain_auth (Some "Bearer t7") = Next (mkTokenUser 7 "ann@example.com").
Proof.
  refine (registered_token_authenticates quiet plain_auth ann_credentials no_account
            "t7" 7 "ann@example.com" eq_refl _ _).
  - intros t. reflexivity.
  - intros t. split; [reflexivity | discriminate].
Defined.

(** ** The page script *)

Lemma find_code_None c db :
  Prototype.find_code c db = None <-> ~ In c (map Prototype.shortCode db).
Proof.
  unfold Prototype.find_code. induction db as [|item db IH]; simpl.
  - tauto.
  - destruct (String.eqb_spec (Prototype.shortCode item) c) as [->|Hne].
    + split; [discriminate | intros H; destruct H; now left].
    + rewrite IH. tauto.
Qed.

Lemma draw_code_first_free b db k : forall fuel n,
  (forall j, (j < k)%nat -> Prototype.find_code (Prototype.random_code b (n + j)) db <> None) ->
  Prototype.find_code (Prototype.random_code b (n + k)) db = None ->
  (k < fuel)%nat ->
  Prototype.draw_code b fuel db n = Some (Prototype.random_code b (n + k), S (n + k)).
Proof.
  induction k as [|k IH]; intros fuel n Hbusy Hfree Hfuel.
  - destruct fuel as [|fuel]; [lia|]. simpl. rewrite Nat.add_0_r in *. now rewrite Hfree.
  - destruct fuel as [|fuel]; [lia|]. simpl.
    pose proof (Hbusy O ltac:(lia)) as H0. rewrite Nat.add_0_r in H0.
    destruct (Prototype.find_code (Prototype.random_code b n) db); [|congruence].
    rewrite (IH fuel (S n)).
    + now rewrite Nat.add_succ_r.
    + intros j Hj. specialize (Hbusy (S j) ltac:(lia)). now rewrite Nat.add_succ_r in Hbusy.
    + now rewrite Nat.add_succ_r in Hfree.
    + lia.
Qed.

Lemma draw_code_free b db : forall fuel n code m,
  Prototype.draw_code b fuel db n = Some (code, m) -> Prototype.find_code code db = None.
Proof.
  induction fuel as [|fuel IH]; intros n code m; simpl; [discriminate|].
  destruct (Prototype.find_code (Prototype.random_code b n) db) eqn:E.
  - apply IH.
  - now intros [= <- _].
Qed.

(** What [generateShortCode] leaves alone, and what it returns. *)
Lemma generateShortCode_result b fuel alias p r p1 :
  Prototype.generateShortCode b fuel alias p = Some (r, p1) ->
  Prototype.urlDatabase p1 = Prototype.urlDatabase p /\
  Prototype.stats p1 = Prototype.stats p /\
  Prototype.stats_text p1 = Prototype.stats_text p /\
  Prototype.stored_urlDatabase p1 = Prototype.stored_urlDatabase p /\
  Prototype.stored_stats p1 = Prototype.stored_stats p /\
  Prototype.originalUrl_value p1 = Prototype.originalUrl_value p /\
  forall code, r = Some code -> Prototype.find_code code (Prototype.urlDatabase p) = None.
Proof.
  unfold Prototype.generateShortCode.
  destruct (negb (String.eqb alias "")).
  - destruct (Prototype.find_code alias (Prototype.urlDatabase p)) eqn:E;
      intros [= <- <-]; repeat split; try discriminate. now intros code [= <-].
  - destruct (Prototype.draw_code b fuel (Prototype.urlDatabase p) (Prototype.draws p))
      as [[code n]|] eqn:E; [|discriminate].
    intros [= <- <-]. repeat split. intros c [= <-]. now apply draw_code_free in E.
Qed.

(** The two ways a submission ends. *)
Lemma shortenUrl_cases b fuel p p' :
  Prototype.shortenUrl b fuel p = Some p' ->
  (Prototype.urlDatabase p' = Prototype.urlDatabase p /\
   Prototype.stats p' = Prototype.stats p /\
   Prototype.stats_text p' = Prototype.stats_text p /\
   Prototype.stored_urlDatabase p' = Prototype.stored_urlDatabase p /\
   Prototype.stored_stats p' = Prototype.stored_stats p) \/
  (exists code p1,
     p' = Prototype.add_link b (Prototype.originalUrl_value p) code p1 /\
     code <> "" /\ Prototype.parses b (Prototype.originalUrl_value p) = true /\
     Prototype.find_code code (Prototype.urlDatabase p) = None /\
     Prototype.urlDatabase p1 = Prototype.urlDatabase p /\
     Prototype.stats p1 = Prototype.stats p).
Proof.
  unfold Prototype.shortenUrl.
  destruct (String.eqb (Prototype.originalUrl_value p) "");
    [intros [= <-]; left; repeat split|].
  destruct (Prototype.parses b (Prototype.originalUrl_value p)) eqn:Hp;
    [|intros [= <-]; left; repeat split]. cbn [negb].
  destruct (Prototype.generateShortCode b fuel _ p) as [[r p1]|] eqn:E; [|discriminate].
  destruct (generateShortCode_result _ _ _ _ _ _ E) as (H1 & H2 & H3 & H4 & H5 & H6 & H7).
  destruct r as [code|]; [|intros [= <-]; left; repeat split; assumption].
  destruct (String.eqb_spec code "") as [->|Hne];
    [intros [= <-]; left; repeat split; assumption|].
  intros [= <-]. right. exists code, p1. repeat split; auto.
Qed.

Lemma click_first_found s db item :
  List.find (fun item => String.eqb (Prototype.shortUrl item) s) db = Some item ->
  script_clicks (Prototype.click_first s db) = script_clicks db + 1 /\
  length (Prototype.click_first s db) = length db /\
  map Prototype.shortCode (Prototype.click_first s db) = map Prototype.shortCode db.
Proof.
  induction db as [|x db IH]; simpl; [discriminate|].
  destruct (String.eqb (Prototype.shortUrl x) s).
  - intros _. simpl. repeat split. lia.
  - intros H. destruct (IH H) as (H1 & H2 & H3). simpl. rewrite H1, H2, H3.
    repeat split. lia.
Qed.

Lemma script_counted_handle b ev p p' :
  Prototype.handle b ev p = Some p' -> script_counted p -> script_counted p'.
Proof.
  destruct ev as [url alias|fuel|]; simpl.
  - intros [= <-]. exact (fun H => H).
  - intros H (H1 & H2 & H3 & H4).
    destruct (shortenUrl_cases _ _ _ _ H)
      as [(E1 & E2 & E3 & _) | (code & p1 & -> & _ & _ & _ & E1 & E2)].
    + unfold script_counted. rewrite E1, E2, E3. auto.
    + unfold script_counted. cbn -[Z.of_nat script_clicks].
      change (script_clicks (?x :: ?l)) with (Prototype.clicks x + script_clicks l).
      cbn -[Z.of_nat script_clicks]. rewrite E1, E2, <- H2, H3, H1.
      repeat split; lia.
  - intros [= <-] (H1 & H2 & H3 & H4). unfold Prototype.openUrl.
    destruct (List.find _ (Prototype.urlDatabase p)) as [item|] eqn:E;
      [|repeat split; assumption].
    destruct (click_first_found _ _ _ E) as (C1 & C2 & _).
    unfold script_counted. cbn -[Z.of_nat script_clicks]. rewrite C1, C2.
    repeat split; auto. lia.
Qed.

Lemma script_saved_handle b ev p p' :
  Prototype.handle b ev p = Some p' -> script_saved p -> script_saved p'.
Proof.
  destruct ev as [url alias|fuel|]; simpl.
  - intros [= <-]. exact (fun H => H).
  - intros H Hs.
    destruct (shortenUrl_cases _ _ _ _ H)
      as [(E1 & E2 & _ & E4 & E5) | (code & p1 & -> & _)].
    + unfold script_saved. rewrite E1, E2, E4, E5. exact Hs.
    + intros urls st. cbn. intros [= <-] [= <-]. split; reflexivity.
  - intros [= <-] Hs. unfold Prototype.openUrl.
    destruct (List.find _ (Prototype.urlDatabase p)) as [item|]; [|exact Hs].
    intros urls st. cbn. intros [= <-] [= <-]. split; reflexivity.
Qed.

Lemma run_invariant (P : Prototype.Page -> Prop) b :
  (forall ev p p', Prototype.handle b ev p = Some p' -> P p -> P p') ->
  forall evs p p', Prototype.run b evs p = Some p' -> P p -> P p'.
Proof.
  intros Hstep. induction evs as [|ev evs IH]; intros p p'; simpl.
  - now intros [= <-].
  - destruct (Prototype.handle b ev p) as [p1|] eqn:E; [|discriminate].
    intros Hr Hp. apply (IH p1 p' Hr). now apply (Hstep ev p p1).
Qed.

(** X21. [generateShortCode] of the page script: a non-empty alias that
    some link already has as its code gives [null] after an alert, and a
    non-empty alias that no link has is returned as it is, nothing being
    drawn; without an alias the result is the first draw that no link has
    as its code, however many draws were taken before it, the loop being
    given the rounds to get there. *)
Theorem script_code_is_alias_or_first_free_draw b p alias k fuel :
  (forall j, (j < k)%nat ->
     In (Prototype.random_code b (Prototype.draws p + j)) (script_codes p)) ->
  ~ In (Prototype.random_code b (Prototype.draws p + k)) (script_codes p) ->
  (k < fuel)%nat ->
  Prototype.generateShortCode b fuel "" p
  = Some (Some (Prototype.random_code b (Prototype.draws p + k)),
          Prototype.set_draws (S (Prototype.draws p + k)) p) /\
  (alias <> "" ->
   Prototype.generateShortCode b fuel alias p
   = if existsb (String.eqb alias) (script_codes p)
     then Some (None, Prototype.alert
                        "This custom alias is already taken. Please choose another." p)
     else Some (Some alias, p)).
Proof.
  intros Hbusy Hfree Hfuel. split.
  - unfold Prototype.generateShortCode. simpl.
    rewrite (draw_code_first_free b (Prototype.urlDatabase p) k); auto.
    + intros j Hj Hn. apply find_code_None in Hn. now apply Hn, Hbusy.
    + now apply find_code_None.
  - intros Hne. unfold Prototype.generateShortCode.
    destruct (String.eqb_spec alias "") as [|_]; [contradiction|]. cbn [negb].
    destruct (existsb (String.eqb alias) (script_codes p)) eqn:Hex.
    + apply existsb_exists in Hex as (c & Hin & Hc). apply String.eqb_eq in Hc as <-.
      destruct (Prototype.find_code alias (Prototype.urlDatabase p)) eqn:E; [reflexivity|].
      apply find_code_None in E. contradiction.
    + assert (Prototype.find_code alias (Prototype.urlDatabase p) = None) as ->; [|reflexivity].
      apply find_code_None. intros Hin.
      assert (existsb (String.eqb alias) (script_codes p) = true) as Ht; [|congruence].
      apply existsb_exists. exists alias. split; [exact Hin | apply String.eqb_refl].
Qed.

Lemma script_code_is_alias_or_first_free_draw_witness :
  let p := Prototype.loadData a_browser first_visit in
  Prototype.generateShortCode a_browser 3 "" (Prototype.set_draws 1 p)
  = Some (Some "k3x9ab", Prototype.set_draws 3 p) /\
  Prototype.generateShortCode a_browser 3 "demo1" (Prototype.set_draws 1 p)
  = Some (None, Prototype.alert "This custom alias is already taken. Please choose another."
                  (Prototype.set_draws 1 p)).
Proof.
  cbv zeta.
  destruct (script_code_is_alias_or_first_free_draw a_browser
              (Prototype.set_draws 1 (Prototype.loadData a_browser first_visit))
              "demo1" 1 3) as [H1 H2].
  - intros j Hj. assert (j = O) as -> by lia. simpl. now left.
  - simpl. intros [H|[]]. discriminate.
  - lia.
  - split; [exact H1 | apply H2; discriminate].
Defined.

(** X22. A submission keeps the codes of the page pairwise distinct, and
    it either leaves the links and the counters as they are (no address,
    an address the parser refuses, an alias that is taken, an empty draw)
    or puts exactly one link in front of the others: no clicks, the
    address from the form, a non-empty code that no link had, the page's
    origin, a slash and that code as its short address, which is also the
    one shown; [totalUrls] and [todayUrls] go up by one, the form is
    emptied and the shown list is the first five links. *)
Theorem script_submission_adds_one_fresh_link b fuel p p' :
  NoDup (script_codes p) ->
  Prototype.shortenUrl b fuel p = Some p' ->
  NoDup (script_codes p') /\
  ((Prototype.urlDatabase p' = Prototype.urlDatabase p /\
    Prototype.stats p' = Prototype.stats p) \/
   (exists item,
      Prototype.urlDatabase p' = item :: Prototype.urlDatabase p /\
      Prototype.clicks item = 0 /\
      Prototype.originalUrl item = Prototype.originalUrl_value p /\
      Prototype.parses b (Prototype.originalUrl item) = true /\
      Prototype.shortCode item <> "" /\
      ~ In (Prototype.shortCode item) (script_codes p) /\
      Prototype.shortUrl item = Prototype.origin b ++ "/" ++ Prototype.shortCode item /\
      Prototype.shortUrl_text p' = Prototype.shortUrl item /\
      Prototype.stats p'
      = Prototype.mkStats (Prototype.totalUrls (Prototype.stats p) + 1)
                          (Prototype.totalClicks (Prototype.stats p))
                          (Prototype.todayUrls (Prototype.stats p) + 1) /\
      Prototype.originalUrl_value p' = "" /\ Prototype.customAlias_value p' = "" /\
      Prototype.urlList p' = firstn 5 (Prototype.urlDatabase p'))).
Proof.
  intros Hnd H.
  destruct (shortenUrl_cases _ _ _ _ H)
    as [(E1 & E2 & _) | (code & p1 & -> & Hne & Hp & Hfree & E1 & E2)].
  - split; [unfold script_codes; now rewrite E1 | left; auto].
  - apply find_code_None in Hfree. split.
    + unfold script_codes. cbn. rewrite E1. apply NoDup_cons. split; [|exact Hnd].
      intros Hin. apply list_elem_of_In in Hin. contradiction.
    + right. eexists. cbn. rewrite E1, E2. repeat split; auto.
Qed.

Lemma script_submission_adds_one_fresh_link_witness :
  let p := Prototype.fill "https://example.org/a" "sale"
             (Prototype.loadData a_browser first_visit) in
  exists p', Prototype.shortenUrl a_browser 1 p = Some p' /\
             script_codes p' = ["sale"; "demo1"] /\ NoDup (script_codes p').
Proof.
  cbv zeta. eexists. split; [reflexivity|]. split; [reflexivity|].
  refine (proj1 (script_submission_adds_one_fresh_link a_browser 1
            (Prototype.fill "https://example.org/a" "sale"
               (Prototype.loadData a_browser first_visit)) _ _ eq_refl)).
  apply NoDup_singleton.
Defined.

(** X23. From the first visit on (nothing stored, so the sample is
    loaded), whatever the user fills in, submits and opens, the counters
    count what is in memory: [totalUrls] is the number of links,
    [totalClicks] the sum of their clicks, [todayUrls] equals [totalUrls]
    (it is never set back), and the three figures shown are those. The
    same holds from stored data for which it held. *)
Theorem script_counters_count b evs p p' :
  match Prototype.stored_urlDatabase p, Prototype.stored_stats p with
  | Some urls, Some st =>
      Prototype.totalUrls st = Z.of_nat (length urls) /\
      Prototype.totalClicks st = script_clicks urls /\
      Prototype.todayUrls st = Prototype.totalUrls st
  | _, _ => True
  end ->
  Prototype.run b evs (Prototype.loadData b p) = Some p' ->
  script_counted p'.
Proof.
  intros Hst Hrun.
  apply (run_invariant script_counted b (script_counted_handle b) _ _ _ Hrun).
  unfold Prototype.loadData, script_counted.
  destruct (Prototype.stored_urlDatabase p) as [urls|];
    [destruct (Prototype.stored_stats p) as [st|]|]; cbn -[Z.of_nat];
    try (repeat split; reflexivity).
  destruct Hst as (H1 & H2 & H3). auto.
Qed.

Lemma script_counters_count_witness :
  exists p',
    Prototype.run a_browser
      [Prototype.Fill "https://example.org/a" "sale"; Prototype.Submit 1; Prototype.Open;
       Prototype.Open] (Prototype.loadData a_browser first_visit) = Some p' /\
    Prototype.stats p' = Prototype.mkStats 2 27 2 /\ script_counted p'.
Proof.
  eexists. split; [reflexivity|]. split; [reflexivity|].
  exact (script_counters_count a_browser
           [Prototype.Fill "https://example.org/a" "sale"; Prototype.Submit 1;
            Prototype.Open; Prototype.Open] first_visit _ I eq_refl).
Defined.

(** X24. Following the link right after a submission that added one
    counts the click on the new link and on no other: its clicks go from
    0 to 1, the links behind it are as they were, [totalClicks] goes up
    by one, the address of the form is what is opened, and memory is
    saved. The list on the page is not drawn again: it still shows the
    new link with no click. *)
Theorem script_open_counts_the_new_link b fuel p p1 :
  Prototype.shortenUrl b fuel p = Some p1 ->
  length (Prototype.urlDatabase p1) = S (length (Prototype.urlDatabase p)) ->
  let p2 := Prototype.openUrl p1 in
  (exists item,
     Prototype.urlDatabase p1 = item :: Prototype.urlDatabase p /\
     Prototype.clicks item = 0 /\
     Prototype.urlDatabase p2
     = Prototype.mkUrlData (Prototype.id item) (Prototype.originalUrl item)
         (Prototype.shortCode item) (Prototype.shortUrl item) 1
         (Prototype.createdAt item) (Prototype.createdTime item)
       :: Prototype.urlDatabase p /\
     Prototype.opened p2 = (Prototype.opened p1 ++ [Prototype.originalUrl_value p])%list /\
     hd_error (Prototype.urlList p2) = Some item) /\
  Prototype.totalClicks (Prototype.stats p2) = Prototype.totalClicks (Prototype.stats p1) + 1 /\
  Prototype.stored_urlDatabase p2 = Some (Prototype.urlDatabase p2) /\
  Prototype.stored_stats p2 = Some (Prototype.stats p2).
Proof.
  intros H Hlen.
  destruct (shortenUrl_cases _ _ _ _ H)
    as [(E1 & _) | (code & q & -> & Hne & Hp & Hfree & E1 & E2)].
  - rewrite E1 in Hlen. lia.
  - cbv zeta. unfold Prototype.openUrl. cbn. rewrite String.eqb_refl. cbn. rewrite E1.
    split; [|repeat split].
    eexists. repeat split.
Qed.

Lemma script_open_counts_the_new_link_witness :
  let p := Prototype.fill "https://example.org/a" "sale"
             (Prototype.loadData a_browser first_visit) in
  exists p1, Prototype.shortenUrl a_browser 1 p = Some p1 /\
    Prototype.totalClicks (Prototype.stats (Prototype.openUrl p1))
    = Prototype.totalClicks (Prototype.stats p1) + 1 /\
    map Prototype.clicks (Prototype.urlDatabase (Prototype.openUrl p1)) = [1; 25] /\
    map Prototype.clicks (Prototype.urlList (Prototype.openUrl p1)) = [0; 25].
Proof.
  cbv zeta. eexists. split; [reflexivity|]. split; [|split; reflexivity].
  exact (proj1 (proj2 (script_open_counts_the_new_link a_browser 1
                         (Prototype.fill "https://example.org/a" "sale"
                            (Prototype.loadData a_browser first_visit)) _ eq_refl eq_refl))).
Defined.

(** X25. Loading the page again brings back what was in memory: after
    any events on a loaded page, once both keys are in the storage, a
    page that starts with this storage has, after [loadData], the same
    links and the same counters, shows these counters and lists the first
    five of these links. *)
Theorem script_reload_restores b evs p p' q :
  Prototype.run b evs (Prototype.loadData b p) = Some p' ->
  Prototype.stored_urlDatabase p' <> None -> Prototype.stored_stats p' <> None ->
  Prototype.stored_urlDatabase q = Prototype.stored_urlDatabase p' ->
  Prototype.stored_stats q = Prototype.stored_stats p' ->
  let q' := Prototype.loadData b q in
  Prototype.urlDatabase q' = Prototype.urlDatabase p' /\
  Prototype.stats q' = Prototype.stats p' /\
  Prototype.stats_text q' = Prototype.stats p' /\
  Prototype.urlList q' = firstn 5 (Prototype.urlDatabase p').
Proof.
  intros Hrun Hu Hs Hqu Hqs.
  assert (script_saved p') as Hsaved.
  { apply (run_invariant script_saved b (script_saved_handle b) _ _ _ Hrun).
    intros urls st. unfold Prototype.loadData.
    destruct (Prototype.stored_urlDatabase p) as [u|] eqn:Eu;
      [destruct (Prototype.stored_stats p) as [s|] eqn:Es|]; cbn; rewrite ?Eu, ?Es;
      try discriminate.
    intros [= <-] [= <-]. split; reflexivity. }
  destruct (Prototype.stored_urlDatabase p') as [urls|] eqn:Eu; [|contradiction].
  destruct (Prototype.stored_stats p') as [st|] eqn:Es; [|contradiction].
  destruct (Hsaved urls st Eu Es) as [<- <-].
  cbv zeta. unfold Prototype.loadData. rewrite Hqu, Hqs. repeat split.
Qed.

Lemma script_reload_restores_witness :
  exists p',
    Prototype.run a_browser
      [Prototype.Fill "https://example.org/a" "sale"; Prototype.Submit 1; Prototype.Open]
      (Prototype.loadData a_browser first_visit) = Some p' /\
    Prototype.urlDatabase (Prototype.loadData a_browser
       (Prototype.mkPage [] (Prototype.mkStats 0 0 0) "" "" "" false
          (Prototype.mkStats 0 0 0) []
          (Prototype.stored_urlDatabase p') (Prototype.stored_stats p') [] [] 0 0))
    = Prototype.urlDatabase p'.
Proof.
  eexists. split; [reflexivity|].
  refine (proj1 (script_reload_restores a_browser
            [Prototype.Fill "https://example.org/a" "sale"; Prototype.Submit 1; Prototype.Open]
            first_visit _ _ eq_refl _ _ eq_refl eq_refl)); discriminate.
Defined.
